(** * jnbvisualizer: the stitch-to-geometry transform, the canvas normalizer,
      colour resolution and the recolor writer of [app.py]

    The development embeds the functions of [app.py] that carry the logic of
    the service and proves the properties stated for them.

    Modelling conventions.
    - Python numbers are modelled twice.  In the body of the development
      the stitch coordinates, the jump threshold, padding and canvas are
      exact rationals [Q], and [(dx * dx + dy * dy) ** 0.5 > t] is decided by
      comparing squares ([sqrt_gt]): this is the program without rounding.
      It carries the properties that do not turn on how a number is rounded:
      which records open and close a block, the counts, the colours, the
      order and the anchoring of the normalized points.  Module [Binary64]
      holds the extractor and the normalizer on binary64 numbers, every
      operation rounded to nearest as Python does on [float]s.  It carries
      the properties that turn on a comparison of computed numbers: the jump
      test and the bounds of the canvas.
    - Python [str] is [string]; a character is a code point below 256.
    - [raise HTTPException(...)] is [Raise (HTTPException ...)] in [result].
    - The pyembroidery pattern is a record with the two attributes the
      program reads: [stitches] and [threadlist].
    - The file system touched by [write] is a finite map from paths to the
      patterns stored there.
    - [os.listdir(MASTER_DIR)] is an optional list of names, [None] when the
      directory is missing; [read] maps a path to the outcome of decoding
      the file there, a pattern or the exception raised. *)

From Stdlib Require Import ZArith QArith Qminmax Qreals Reals Psatz List String Ascii.
From Stdlib Require Import SpecFloat.
From stdpp Require Import gmap strings list sorting.
Import ListNotations.

Local Open Scope Q_scope.

(** ** Errors *)

(** What a call can raise: [HTTPException(status_code, detail)], the
    [IndexError] of a subscript out of range, or any other Python exception,
    kept by the name of its class (the [TypeError] pyembroidery raises on a
    [.pes] file without content, for one). *)
Inductive exn : Type :=
| HTTPException (status_code : Z) (detail : string)
| IndexError
| PyException (cls : string).

Inductive result (A : Type) : Type :=
| Ok (a : A)
| Raise (e : exn).
Arguments Ok {A} a.
Arguments Raise {A} e.

Definition rbind {A B} (r : result A) (k : A -> result B) : result B :=
  match r with
  | Ok a => k a
  | Raise e => Raise e
  end.

Notation "'let!' x ':=' r 'in' k" := (rbind r (fun x => k))
  (at level 10, x name, r at level 100, k at level 200).

(** [l[i]]. *)
Definition index {A} (l : list A) (i : nat) : result A :=
  match l !! i with
  | Some a => Ok a
  | None => Raise IndexError
  end.

(** ** Configuration *)

Definition MAX_BLOCKS : nat := 20.

(** [float(os.environ.get("JNB_JUMP_THRESHOLD", "45.0"))] when the variable
    is not set.  The functions below take the threshold as an argument. *)
Definition JUMP_DISTANCE_THRESHOLD : Q := 45.

(** ** Data *)

(** One entry [x, y, cmd] of [pattern.stitches]. *)
Definition stitch : Type := Q * Q * Z.

(** One entry [(x1, y1, x2, y2)] of a block. *)
Definition segment : Type := Q * Q * Q * Q.

Definition block : Type := list segment.

(** A pyembroidery thread: the [color] attribute (an int, 0xRRGGBB) and the
    descriptive attributes the program never touches. *)
Record EmbThread := mkEmbThread {
  color : Z;
  description : string;
  catalog_number : string;
  brand : string
}.

Record EmbPattern := mkEmbPattern {
  stitches : list stitch;
  threadlist : list EmbThread
}.

Definition STITCH : Z := 0.
Definition JUMP : Z := 1.
Definition TRIM : Z := 2.
Definition STOP : Z := 3.
Definition END : Z := 4.
Definition COLOR_CHANGE : Z := 5.

(** ** PES -> blocks *)

Definition Qlt_bool (a b : Q) : bool := negb (Qle_bool b a).

(** [d2 ** 0.5 > t] for [d2 >= 0] without rounding, by comparison of
    squares; [Binary64.scan_step] has the rounded test. *)
Definition sqrt_gt (d2 t : Q) : bool :=
  if Qle_bool 0 t then Qlt_bool (t * t) d2 else true.

(** The loop state of [pattern_to_blocks_clean]: [blocks], [current],
    [last]. *)
Definition scan_state : Type := list block * block * option (Q * Q).

(** The body of [for x, y, cmd in pattern.stitches]. *)
Definition scan_step (thr : Q) (st : scan_state) (s : stitch) : scan_state :=
  let '(blocks, current, last) := st in
  let '(x, y, cmd) := s in
  if (cmd =? 0)%Z then
    match last with
    | Some (x0, y0) =>
        let dx := x - x0 in
        let dy := y - y0 in
        if sqrt_gt (dx * dx + dy * dy) thr
        then (blocks, current, Some (x, y))
        else (blocks, current ++ [(x0, y0, x, y)], Some (x, y))
    | None => (blocks, current, Some (x, y))
    end
  else if (cmd =? 5)%Z then
    match current with
    | [] => (blocks, current, None)
    | _ :: _ => (blocks ++ [current], [], None)
    end
  else (blocks, current, None).

Definition scan_init : scan_state := ([], [], None).

(** The [if current: blocks.append(current)] after the loop. *)
Definition scan_finish (st : scan_state) : list block :=
  let '(blocks, current, _) := st in
  match current with
  | [] => blocks
  | _ :: _ => blocks ++ [current]
  end.

Definition blocks_of_stitches (thr : Q) (l : list stitch) : list block :=
  scan_finish (fold_left (scan_step thr) l scan_init).

Definition pattern_to_blocks_clean (thr : Q) (pattern : EmbPattern)
  : list block :=
  blocks_of_stitches thr (stitches pattern).

Definition get_block_count (thr : Q) (pattern : EmbPattern) : nat :=
  Nat.min (length (pattern_to_blocks_clean thr pattern)) MAX_BLOCKS.

(** ** Canvas normalizer *)

(** [pts] of [normalize_blocks]: both endpoints of every segment, in order. *)
Definition segment_points (s : segment) : list (Q * Q) :=
  let '(x1, y1, x2, y2) := s in [(x1, y1); (x2, y2)].

Definition endpoints (blocks : list block) : list (Q * Q) :=
  flat_map (fun b => flat_map segment_points b) blocks.

(** [min(xs)] and [max(xs)] on a list with head [x]: the first smallest
    (largest) element. *)
Definition py_min (x : Q) (xs : list Q) : Q :=
  fold_left (fun m v => if Qlt_bool v m then v else m) xs x.

Definition py_max (x : Q) (xs : list Q) : Q :=
  fold_left (fun m v => if Qlt_bool m v then v else m) xs x.

(** [max(a, b)]. *)
Definition py_max2 (a b : Q) : Q := if Qlt_bool a b then b else a.

(** [a or b] on numbers: [b] when [a] is zero. *)
Definition py_or (a b : Q) : Q := if Qeq_bool a 0 then b else a.

(** The values [normalize_blocks] computes from a non-empty [pts], without
    rounding; [Binary64.norm_frame] has the rounded ones. *)
Record frame := mkFrame {
  minx : Q; maxx : Q; miny : Q; maxy : Q;
  w : Q; h : Q; scale : Q
}.

Definition norm_frame (p0 : Q * Q) (ps : list (Q * Q)) (padding canvas : Q)
  : frame :=
  let xs := map fst ps in
  let ys := map snd ps in
  let minx := py_min (fst p0) xs in
  let maxx := py_max (fst p0) xs in
  let miny := py_min (snd p0) ys in
  let maxy := py_max (snd p0) ys in
  let w := py_or (maxx - minx) 1 in
  let h := py_or (maxy - miny) 1 in
  let scale := (canvas - 2 * padding) / py_max2 w h in
  mkFrame minx maxx miny maxy w h scale.

Definition norm_segment (f : frame) (padding : Q) (s : segment) : segment :=
  let '(x1, y1, x2, y2) := s in
  ((x1 - minx f) * scale f + padding,
   (y1 - miny f) * scale f + padding,
   (x2 - minx f) * scale f + padding,
   (y2 - miny f) * scale f + padding).

Definition normalize_blocks (blocks : list block) (padding canvas : Q)
  : list block * Q :=
  match endpoints blocks with
  | [] => (blocks, canvas)
  | p0 :: ps =>
      let f := norm_frame p0 ps padding canvas in
      (map (map (norm_segment f padding)) blocks, canvas)
  end.

(** ** Strings *)

Definition code (c : ascii) : nat := nat_of_ascii c.

Definition in_range (lo hi n : nat) : bool := (lo <=? n)%nat && (n <=? hi)%nat.

(** [str.isspace] on the code points below 256. *)
Definition is_space (c : ascii) : bool :=
  in_range 9 13 (code c) || in_range 28 32 (code c)
  || (code c =? 133)%nat || (code c =? 160)%nat.

Definition is_hash (c : ascii) : bool := (code c =? 35)%nat.

Definition is_underscore (c : ascii) : bool := (code c =? 95)%nat.

Fixpoint lstrip (p : ascii -> bool) (s : string) : string :=
  match s with
  | EmptyString => EmptyString
  | String c s' => if p c then lstrip p s' else s
  end.

Definition string_rev (s : string) : string :=
  string_of_list_ascii (rev (list_ascii_of_string s)).

Definition rstrip (p : ascii -> bool) (s : string) : string :=
  string_rev (lstrip p (string_rev s)).

(** [s.strip()] and [s.strip(chars)]. *)
Definition strip (p : ascii -> bool) (s : string) : string :=
  rstrip p (lstrip p s).

Fixpoint string_forall (p : ascii -> bool) (s : string) : bool :=
  match s with
  | EmptyString => true
  | String c s' => p c && string_forall p s'
  end.

(** The join of [[c * 2 for c in h]]: every character twice. *)
Fixpoint double_chars (s : string) : string :=
  match s with
  | EmptyString => EmptyString
  | String c s' => String c (String c (double_chars s'))
  end.

(** The character class [[0-9a-fA-F]]. *)
Definition is_hex_digit (c : ascii) : bool :=
  in_range 48 57 (code c) || in_range 97 102 (code c)
  || in_range 65 70 (code c).

(** [re.fullmatch(r"[0-9a-fA-F]{6}", h)]. *)
Definition fullmatch_hex6 (s : string) : bool :=
  (String.length s =? 6)%nat && string_forall is_hex_digit s.

Definition hex_digit_value (c : ascii) : Z :=
  let n := code c in
  if in_range 48 57 n then Z.of_nat n - 48
  else if in_range 97 102 n then Z.of_nat n - 87
  else if in_range 65 70 n then Z.of_nat n - 55
  else 0.

(** [int(s, 16)] on a string of hexadecimal digits. *)
Definition int16 (s : string) : Z :=
  fold_left (fun acc c => (acc * 16 + hex_digit_value c)%Z)
            (list_ascii_of_string s) 0%Z.

(** [h] of [hex_to_rgb]: [hex_color.strip().lstrip("#")], with the
    three-character form expanded. *)
Definition clean_hex (hex_color : string) : string :=
  let h := lstrip is_hash (strip is_space hex_color) in
  if (String.length h =? 3)%nat then double_chars h else h.

Definition invalid_color (hex_color : string) : exn :=
  HTTPException 400 ("Invalid color: " ++ hex_color).

Definition hex_to_rgb (hex_color : string) : result (Z * Z * Z) :=
  let h := clean_hex hex_color in
  if negb (String.length h =? 6)%nat || negb (fullmatch_hex6 h)
  then Raise (invalid_color hex_color)
  else Ok (int16 (substring 0 2 h), int16 (substring 2 2 h),
           int16 (substring 4 2 h)).

Definition hex_to_rgb_int (hex_color : string) : result Z :=
  let h := clean_hex hex_color in
  if negb (String.length h =? 6)%nat || negb (fullmatch_hex6 h)
  then Raise (invalid_color hex_color)
  else Ok (int16 h).

(** ** Thread colours *)

Definition hex_digit_char (n : Z) : ascii :=
  if (n <? 10)%Z then ascii_of_nat (Z.to_nat n + 48)
  else ascii_of_nat (Z.to_nat n + 87).

(** [f"#{c:06x}"] for [0 <= c < 2^24], the range of [x & 0xFFFFFF]. *)
Definition format_hash_06x (c : Z) : string :=
  let d k := hex_digit_char (Z.land (Z.shiftr c k) 15) in
  String "#" (String (d 20%Z) (String (d 16%Z) (String (d 12%Z)
    (String (d 8%Z) (String (d 4%Z) (String (d 0%Z) EmptyString)))))).

(** [int(t.color)] cannot fail on an integer colour, so the [except] branch
    of the source is not reachable here. *)
Definition extract_thread_colors (pattern : EmbPattern) : list string :=
  firstn MAX_BLOCKS
    (map (fun t => format_hash_06x (Z.land (color t) 16777215))
         (threadlist pattern)).

(** ** Rendering *)

Definition rgb : Type := Z * Z * Z.

(** The calls made on the [ImageDraw] object. *)
Inductive draw_op : Type :=
| Line (xy : segment) (fill : rgb) (width : Z)
| Rectangle (xy : Q * Q * Q * Q) (fill : rgb)
| Text (xy : Q * Q) (text : string) (fill : rgb).

(** The image before it is encoded as PNG: its size, the background it was
    created with and the drawing calls in order. *)
Record image := mkImage {
  img_size : Q * Q;
  img_background : rgb;
  img_ops : list draw_op
}.

(** The colour chosen for block [i] in the loop of [render_preview_png]. *)
Definition block_color (colors_hex fallback : list string) (i : nat)
  : result rgb :=
  if (i <? length colors_hex)%nat then
    let! c := index colors_hex i in hex_to_rgb c
  else if (i <? length fallback)%nat then
    let! c := index fallback i in hex_to_rgb c
  else Ok (0, 0, 0)%Z.

(** [for x1, y1, x2, y2 in block: draw.line(..., fill=col, width=2)]. *)
Definition block_lines (col : rgb) (b : block) : list draw_op :=
  map (fun s => Line s col 2) b.

(** [for i, block in enumerate(blocks)], started at index [i]. *)
Fixpoint draw_blocks (colors_hex fallback : list string) (i : nat)
  (blocks : list block) : result (list draw_op) :=
  match blocks with
  | [] => Ok []
  | b :: rest =>
      let! col := block_color colors_hex fallback i in
      let! ops := draw_blocks colors_hex fallback (S i) rest in
      Ok (block_lines col b ++ ops)
  end.

(** The blocks [render_preview_png] draws: capped, then normalized. *)
Definition render_blocks (thr : Q) (pattern : EmbPattern) : list block * Q :=
  normalize_blocks (firstn MAX_BLOCKS (pattern_to_blocks_clean thr pattern))
                   40 900.

(** The band and the notice drawn last. *)
Definition watermark (canvas : Q) : list draw_op :=
  [Rectangle (0, canvas - 26, canvas, canvas) (0, 0, 0)%Z;
   Text (10, canvas - 20) "jnbvisualizer proof (preview only)"
        (255, 255, 255)%Z].

(** [render_preview_png], with [pattern] the value of [read(design_path)]. *)
Definition render_preview_png (thr : Q) (pattern : EmbPattern)
  (bg_hex : string) (colors_hex : list string) : result image :=
  let '(blocks, canvas) := render_blocks thr pattern in
  let fallback := extract_thread_colors pattern in
  let! bg := hex_to_rgb bg_hex in
  let! lines := draw_blocks colors_hex fallback 0 blocks in
  Ok (mkImage (canvas, canvas) bg (lines ++ watermark canvas)).

(** ** Recolor writer *)

Definition to_lower (c : ascii) : ascii :=
  let n := code c in
  if in_range 65 90 n || (in_range 192 222 n && negb (n =? 215)%nat)
  then ascii_of_nat (n + 32) else c.

Fixpoint string_map (f : ascii -> ascii) (s : string) : string :=
  match s with
  | EmptyString => EmptyString
  | String c s' => String (f c) (string_map f s')
  end.

(** [re.sub(p+, "_", s)]: every maximal run of characters in [p] becomes one
    underscore.  [in_run] tells that the previous character was in [p]. *)
Fixpoint sub_runs (p : ascii -> bool) (in_run : bool) (s : string) : string :=
  match s with
  | EmptyString => EmptyString
  | String c s' =>
      if p c then
        if in_run then sub_runs p true s'
        else String "_" (sub_runs p true s')
      else String c (sub_runs p false s')
  end.

(** The complement of the class [[a-z0-9_-]]. *)
Definition not_tag_char (c : ascii) : bool :=
  negb (in_range 97 122 (code c) || in_range 48 57 (code c)
        || (code c =? 95)%nat || (code c =? 45)%nat).

Definition safe_tag (s : string) (max_len : nat) : string :=
  let s := string_map to_lower (strip is_space s) in
  let s := sub_runs not_tag_char false s in
  let s := strip is_underscore (sub_runs is_underscore false s) in
  substring 0 max_len (if (String.length s =? 0)%nat then "client" else s).

Definition set_color (t : EmbThread) (c : Z) : EmbThread :=
  mkEmbThread c (description t) (catalog_number t) (brand t).

(** [for i in range(n): pattern.threadlist[i].color =
    hex_to_rgb_int(colors_hex[i])], over the indices [idxs] still to visit. *)
Fixpoint recolor_loop (idxs : list nat) (colors_hex : list string)
  (tl : list EmbThread) : result (list EmbThread) :=
  match idxs with
  | [] => Ok tl
  | i :: rest =>
      let! c := index colors_hex i in
      let! v := hex_to_rgb_int c in
      let! t := index tl i in
      recolor_loop rest colors_hex (<[i := set_color t v]> tl)
  end.

Section RecolorWriter.

(** The directory of generated files and the two [os.path] functions the
    writer calls: [os.path.splitext(p)[0]] and [os.path.join]. *)
Variable GENERATED_DIR : string.
Variable splitext_root : string -> string.
Variable path_join : string -> string -> string.

Definition out_name (design_file client_tag proof_id : string) : string :=
  splitext_root design_file ++ "__" ++ safe_tag client_tag 28 ++ "__"
    ++ proof_id ++ ".pes".

(** [generate_recolored_pes], with [pattern] the value of
    [read(master_path)] and [disk] the files before the call; it returns
    the outcome and the files after the call. *)
Definition generate_recolored_pes (disk : gmap string EmbPattern)
  (pattern : EmbPattern) (colors_hex : list string)
  (proof_id client_tag design_file : string)
  : result string * gmap string EmbPattern :=
  match threadlist pattern with
  | [] =>
      (Raise (HTTPException 500 "Master PES has no thread list."), disk)
  | _ :: _ =>
      let n := Nat.min (length (threadlist pattern)) (length colors_hex) in
      match recolor_loop (seq 0 n) colors_hex (threadlist pattern) with
      | Raise e => (Raise e, disk)
      | Ok tl =>
          let out_path :=
            path_join GENERATED_DIR
                      (out_name design_file client_tag proof_id) in
          (Ok out_path,
           <[out_path := mkEmbPattern (stitches pattern) tl]> disk)
      end
  end.

End RecolorWriter.

(** ** Colour lists *)

Definition is_comma (c : ascii) : bool := (code c =? 44)%nat.

(** [s.split(",")]: the pieces between the commas, at least one. *)
Fixpoint split_comma (s : string) : list string :=
  match s with
  | EmptyString => [EmptyString]
  | String c s' =>
      if is_comma c then EmptyString :: split_comma s'
      else
        match split_comma s' with
        | [] => [String c EmptyString]
        | p :: ps => String c p :: ps
        end
  end.

Definition is_empty (s : string) : bool :=
  match s with
  | EmptyString => true
  | String _ _ => false
  end.

(** [[c.strip() for c in colors_csv.split(",") if c.strip()]]. *)
Definition stripped_pieces (colors_csv : string) : list string :=
  List.filter (fun c => negb (is_empty c))
              (map (strip is_space) (split_comma colors_csv)).

(** [for c in arr: _ = hex_to_rgb_int(c)]. *)
Fixpoint check_colors (arr : list string) : result unit :=
  match arr with
  | [] => Ok tt
  | c :: rest => let! v := hex_to_rgb_int c in check_colors rest
  end.

Definition parse_colors_csv (colors_csv : string) : result (list string) :=
  match stripped_pieces colors_csv with
  | [] => Raise (HTTPException 400 "No colors provided.")
  | _ :: _ =>
      let arr := firstn MAX_BLOCKS (stripped_pieces colors_csv) in
      let! u := check_colors arr in
      Ok arr
  end.

(** ** Design files and routes *)

(** [s.endswith(suffix)]. *)
Definition endswith (s suffix : string) : bool :=
  String.prefix (string_rev suffix) (string_rev s).

(** The order of [sorted] on strings. *)
Definition string_le (a b : string) : Prop := String.leb a b = true.

#[global] Instance string_le_dec (a b : string) : Decision (string_le a b).
Proof. unfold string_le. apply _. Defined.

(** [list_pes_files], with [listing] the value of [os.listdir(MASTER_DIR)],
    or [None] when [MASTER_DIR] is not a directory. *)
Definition list_pes_files (listing : option (list string)) : list string :=
  match listing with
  | None => []
  | Some entries =>
      merge_sort string_le
        (List.filter (fun f => endswith (string_map to_lower f) ".pes")
                     entries)
  end.

(** The body of [/design-info]. *)
Record design_info_response := mkDesignInfo {
  di_design : string;
  di_colors : list string;
  di_block_count : nat
}.

Section Routes.

(** The master directory, [os.path.join], the decoder and the jump threshold
    the module was loaded with.  [read path] is the outcome of decoding the
    file at [path]: the pattern, or the exception that leaves the route when
    pyembroidery raises on the content of the file, or hands back an object
    on which the first attribute access raises. *)
Variable MASTER_DIR : string.
Variable path_join : string -> string -> string.
Variable read : string -> result EmbPattern.
Variable thr : Q.

Definition validate_design_file (listing : option (list string))
  (design_file : string) : result string :=
  let files : gset string := list_to_set (list_pes_files listing) in
  if bool_decide (design_file ∈ files)
  then Ok (path_join MASTER_DIR design_file)
  else Raise (HTTPException 404 "Design file not found in designs/master.").

Definition design_info (listing : option (list string)) (design : string)
  : result design_info_response :=
  let! design_path := validate_design_file listing design in
  let! pattern := read design_path in
  let colors := extract_thread_colors pattern in
  let blocks := get_block_count thr pattern in
  Ok (mkDesignInfo design colors blocks).

(** [/preview.png]; the response carries the rendered image.  The call of
    [render_preview_png] starts by decoding the file. *)
Definition preview_png (listing : option (list string))
  (design bg colors : string) : result image :=
  let! design_path := validate_design_file listing design in
  let! u := hex_to_rgb_int bg in
  let! colors_list := parse_colors_csv colors in
  let! pattern := read design_path in
  render_preview_png thr pattern bg colors_list.

End Routes.

(** ** The extractor and the normalizer in binary64 *)

(** The two functions on Python [float]s: binary64 numbers, every operation
    rounded to nearest, ties to even.  [x ** 0.5] is the correctly rounded
    square root.  A Python [int] of the size of a stitch coordinate is the
    binary64 number of the same value, and the operations below are exact
    on such integers while the results stay below 2^53. *)
Module Binary64.

Definition float : Type := spec_float.

Definition prec : Z := 53.
Definition emax : Z := 1024.

(** The float nearest to [m * 2 ^ e], and [float(n)]. *)
Definition of_scaled (m e : Z) : float := binary_normalize prec emax m e false.
Definition of_Z (n : Z) : float := of_scaled n 0.

Definition add : float -> float -> float := SFadd prec emax.
Definition sub : float -> float -> float := SFsub prec emax.
Definition mul : float -> float -> float := SFmul prec emax.
Definition div : float -> float -> float := SFdiv prec emax.
Definition sqrt : float -> float := SFsqrt prec emax.

(** [a < b] and [a == b]; both are false when an operand is not a number. *)
Definition ltb : float -> float -> bool := SFltb.
Definition eqb : float -> float -> bool := SFeqb.

Definition JUMP_DISTANCE_THRESHOLD : float := of_Z 45.

Definition stitch : Type := float * float * Z.
Definition segment : Type := float * float * float * float.
Definition block : Type := list segment.

Definition scan_state : Type := list block * block * option (float * float).

(** The body of [for x, y, cmd in pattern.stitches]. *)
Definition scan_step (thr : float) (st : scan_state) (s : stitch)
  : scan_state :=
  let '(blocks, current, last) := st in
  let '(x, y, cmd) := s in
  if (cmd =? 0)%Z then
    match last with
    | Some (x0, y0) =>
        let dx := sub x x0 in
        let dy := sub y y0 in
        let dist := sqrt (add (mul dx dx) (mul dy dy)) in
        if ltb thr dist
        then (blocks, current, Some (x, y))
        else (blocks, current ++ [(x0, y0, x, y)], Some (x, y))
    | None => (blocks, current, Some (x, y))
    end
  else if (cmd =? 5)%Z then
    match current with
    | [] => (blocks, current, None)
    | _ :: _ => (blocks ++ [current], [], None)
    end
  else (blocks, current, None).

Definition scan_init : scan_state := ([], [], None).

Definition scan_finish (st : scan_state) : list block :=
  let '(blocks, current, _) := st in
  match current with
  | [] => blocks
  | _ :: _ => blocks ++ [current]
  end.

(** [pattern_to_blocks_clean], on the value of [pattern.stitches]. *)
Definition pattern_to_blocks_clean (thr : float) (stitches : list stitch)
  : list block :=
  scan_finish (fold_left (scan_step thr) stitches scan_init).

Definition segment_points (s : segment) : list (float * float) :=
  let '(x1, y1, x2, y2) := s in [(x1, y1); (x2, y2)].

Definition endpoints (blocks : list block) : list (float * float) :=
  flat_map (fun b => flat_map segment_points b) blocks.

Definition py_min (x : float) (xs : list float) : float :=
  fold_left (fun m v => if ltb v m then v else m) xs x.

Definition py_max (x : float) (xs : list float) : float :=
  fold_left (fun m v => if ltb m v then v else m) xs x.

Definition py_max2 (a b : float) : float := if ltb a b then b else a.

(** [a or b]: [b] when [a] is a zero of either sign. *)
Definition py_or (a b : float) : float := if eqb a (of_Z 0) then b else a.

Record frame := mkFrame {
  minx : float; maxx : float; miny : float; maxy : float;
  w : float; h : float; scale : float
}.

Definition norm_frame (p0 : float * float) (ps : list (float * float))
  (padding canvas : float) : frame :=
  let xs := map fst ps in
  let ys := map snd ps in
  let minx := py_min (fst p0) xs in
  let maxx := py_max (fst p0) xs in
  let miny := py_min (snd p0) ys in
  let maxy := py_max (snd p0) ys in
  let w := py_or (sub maxx minx) (of_Z 1) in
  let h := py_or (sub maxy miny) (of_Z 1) in
  let scale := div (sub canvas (mul (of_Z 2) padding)) (py_max2 w h) in
  mkFrame minx maxx miny maxy w h scale.

Definition norm_segment (f : frame) (padding : float) (s : segment)
  : segment :=
  let '(x1, y1, x2, y2) := s in
  (add (mul (sub x1 (minx f)) (scale f)) padding,
   add (mul (sub y1 (miny f)) (scale f)) padding,
   add (mul (sub x2 (minx f)) (scale f)) padding,
   add (mul (sub y2 (miny f)) (scale f)) padding).

Definition normalize_blocks (blocks : list block) (padding canvas : float)
  : list block * float :=
  match endpoints blocks with
  | [] => (blocks, canvas)
  | p0 :: ps =>
      let f := norm_frame p0 ps padding canvas in
      (map (map (norm_segment f padding)) blocks, canvas)
  end.

End Binary64.

(** ** Notions used in the statements *)

(** The Euclidean distance between two points, as a real number. *)
Definition euclid (x0 y0 x y : Q) : R :=
  sqrt ((Q2R x - Q2R x0) * (Q2R x - Q2R x0)
        + (Q2R y - Q2R y0) * (Q2R y - Q2R y0)).

(** The squared distance [dx * dx + dy * dy] the scan computes. *)
Definition dist2 (x0 y0 x y : Q) : Q :=
  (x - x0) * (x - x0) + (y - y0) * (y - y0).

(** The number of COLOR_CHANGE records of a stitch sequence. *)
Definition color_change_count (l : list stitch) : nat :=
  length (List.filter (fun s : stitch => (snd s =? COLOR_CHANGE)%Z) l).

(** The number of segments over all blocks. *)
Definition total_segments (blocks : list block) : nat :=
  length (concat blocks).

(** A design with [n] colour changes, each after a drawn unit move. *)
Fixpoint striped_design (n : nat) : list stitch :=
  match n with
  | O => [(0, 0, STITCH); (1, 0, STITCH)]
  | S n' =>
      (0, 0, STITCH) :: (1, 0, STITCH) :: (1, 0, COLOR_CHANGE)
        :: striped_design n'
  end.

(** The runs of a stitch sequence: what lies before, between and after its
    COLOR_CHANGE records. *)
Fixpoint color_runs (l : list stitch) : list (list stitch) :=
  match l with
  | [] => [[]]
  | s :: l' =>
      if (snd s =? COLOR_CHANGE)%Z then [] :: color_runs l'
      else
        match color_runs l' with
        | r :: rs => (s :: r) :: rs
        | [] => [[s]]
        end
  end.

(** The extractor gets at least one segment out of the stitches [r]. *)
Definition draws (thr : Q) (r : list stitch) : bool :=
  (0 <? total_segments (blocks_of_stitches thr r))%nat.

(** No block of the list is empty. *)
Definition nonempty_blocks (bs : list block) : Prop :=
  Forall (fun b : block => b <> []) bs.

(** The image of a point under the map of [normalize_blocks]. *)
Definition norm_point (f : frame) (padding : Q) (pt : Q * Q) : Q * Q :=
  ((fst pt - minx f) * scale f + padding,
   (snd pt - miny f) * scale f + padding).

(** A point with integer coordinates. *)
Definition int_point (pt : Z * Z) : Q * Q :=
  (inject_Z (fst pt), inject_Z (snd pt)).

(** Removal of one leading ['#'], and the test "exactly 3 or 6 hexadecimal
    digits". *)
Definition strip_one_hash (s : string) : string :=
  match s with
  | String c s' => if is_hash c then s' else s
  | EmptyString => s
  end.

Definition hex_3_or_6 (s : string) : bool :=
  ((String.length s =? 3)%nat || (String.length s =? 6)%nat)
  && string_forall is_hex_digit s.

(** What [hex_to_rgb] and [hex_to_rgb_int] test: the input with the
    surrounding white space and then every leading ['#'] removed. *)
Definition trimmed_hex (s : string) : string :=
  lstrip is_hash (strip is_space s).

(** The red, green and blue bytes of a colour 0xRRGGBB. *)
Definition rgb_of_int (c : Z) : rgb :=
  (Z.land (Z.shiftr c 16) 255, Z.land (Z.shiftr c 8) 255, Z.land c 255).

(** The colour of a thread as the renderer sees it. *)
Definition thread_rgb (t : EmbThread) : rgb :=
  rgb_of_int (Z.land (color t) 16777215).

(** The characters a formatted thread colour is made of. *)
Definition hex_or_hash (c : ascii) : bool := is_hex_digit c || is_hash c.

(** A nibble is printed as a hexadecimal digit that reads back as itself. *)
Definition nibble_ok (n : Z) : bool :=
  is_hex_digit (hex_digit_char n)
  && (hex_digit_value (hex_digit_char n) =? n)%Z.

(** A segment that joins two consecutive STITCH records of [l]. *)
Definition joins (l : list stitch) (sg : segment) : Prop :=
  let '(x0, y0, x, y) := sg in
  exists l1 l2, l = l1 ++ (x0, y0, STITCH) :: (x, y, STITCH) :: l2.

(** The number of STITCH records. *)
Definition count_stitch (l : list stitch) : nat :=
  length (List.filter (fun s : stitch => (snd s =? STITCH)%Z) l).

(** All the segments drawn for a stitch sequence, block after block. *)
Definition drawn_segments (thr : Q) (l : list stitch) : list segment :=
  concat (blocks_of_stitches thr l).

(** The segments a scan state holds: the finished blocks, then the running
    one. *)
Definition held_segments (st : scan_state) : list segment :=
  concat (fst (fst st)) ++ snd (fst st).

(** A character that leaves a piece of a colour list blank. *)
Definition comma_or_space (c : ascii) : bool := is_comma c || is_space c.

(** The exception is an [HTTPException] with status 400. *)
Definition is_bad_request (e : exn) : Prop :=
  exists d, e = HTTPException 400 d.

(** A drawing call that is a line of width 2. *)
Definition is_thin_line (op : draw_op) : Prop :=
  exists sg col, op = Line sg col 2.

(** The exception of [validate_design_file]. *)
Definition design_not_found : exn :=
  HTTPException 404 "Design file not found in designs/master.".

(** The class [[a-z0-9_-]] of [safe_tag]. *)
Definition is_tag_char (c : ascii) : bool := negb (not_tag_char c).

(** No two adjacent characters of [l] are in [p]; [prev] tells that the
    character before [l] is in [p]. *)
Fixpoint no_double (p : ascii -> bool) (prev : bool) (l : list ascii) : bool :=
  match l with
  | [] => true
  | c :: l' =>
      if p c then negb prev && no_double p true l'
      else no_double p false l'
  end.

(** The first character, if any, is not in [p]. *)
Definition head_ok (p : ascii -> bool) (l : list ascii) : bool :=
  match l with
  | [] => true
  | c :: _ => negb (p c)
  end.

(** The distance the scan computes in binary64 for the move from [(x0, y0)]
    to [(x, y)]. *)
Definition computed_dist (x0 y0 x y : Binary64.float) : Binary64.float :=
  Binary64.sqrt
    (Binary64.add
       (Binary64.mul (Binary64.sub x x0) (Binary64.sub x x0))
       (Binary64.mul (Binary64.sub y y0) (Binary64.sub y y0))).




(** The real value of a finite float, as a rational. *)
Definition exact (a : Binary64.float) : option Q :=
  match a with
  | S754_zero _ => Some 0
  | S754_finite s m e =>
      Some (inject_Z (if s then Z.neg m else Z.pos m) * Qpower 2 e)
  | _ => None
  end.








(** * Properties *)

(** ** The jump test *)

Lemma Qlt_bool_iff (a b : Q) : Qlt_bool a b = true <-> a < b.
Proof.
  unfold Qlt_bool. rewrite negb_true_iff.
  split; intro Hab.
  - apply Qnot_le_lt. intro Hle. apply Qle_bool_iff in Hle. congruence.
  - destruct (Qle_bool b a) eqn:E; [|reflexivity].
    apply Qle_bool_iff in E. exfalso. exact (Qlt_not_le _ _ Hab E).
Qed.

Lemma Qlt_bool_false_iff (a b : Q) : Qlt_bool a b = false <-> b <= a.
Proof.
  unfold Qlt_bool. rewrite negb_false_iff. apply Qle_bool_iff.
Qed.

(** Case analysis on one [Qlt_bool] test of the goal or of a hypothesis,
    leaving the order fact in the context. *)
Ltac case_Qlt_bool :=
  match goal with
  | |- context [Qlt_bool ?a ?b] =>
      let E := fresh "E" in
      destruct (Qlt_bool a b) eqn:E;
      [apply Qlt_bool_iff in E | apply Qlt_bool_false_iff in E]
  | H : context [Qlt_bool ?a ?b] |- _ =>
      let E := fresh "E" in
      destruct (Qlt_bool a b) eqn:E;
      [apply Qlt_bool_iff in E | apply Qlt_bool_false_iff in E]
  end.

Lemma dist2_nonneg (x0 y0 x y : Q) : 0 <= dist2 x0 y0 x y.
Proof.
  unfold dist2.
  assert (Hsq : forall a : Q, 0 <= a * a).
  { intros [n d]. unfold Qle, Qmult; simpl. nia. }
  change 0 with (0 + 0).
  apply Qplus_le_compat; apply Hsq.
Qed.

Lemma euclid_dist2 (x0 y0 x y : Q) :
  euclid x0 y0 x y = sqrt (Q2R (dist2 x0 y0 x y)).
Proof.
  unfold euclid, dist2. f_equal.
  rewrite Q2R_plus, !Q2R_mult, !Q2R_minus. reflexivity.
Qed.


(** ** The scan *)

(** *** Blocks are never empty *)

Lemma scan_step_nonempty (thr : Q) (st : scan_state) (s : stitch) :
  nonempty_blocks (fst (fst st)) ->
  nonempty_blocks (fst (fst (scan_step thr st s))).
Proof.
  destruct st as [[bs cur] last], s as [[x y] cmd]. simpl. intro Hbs.
  destruct (cmd =? 0)%Z.
  - destruct last as [[x0 y0]|]; [|exact Hbs].
    destruct (sqrt_gt _ _); exact Hbs.
  - destruct (cmd =? 5)%Z; [|exact Hbs].
    destruct cur as [|sg cur]; [exact Hbs|].
    apply Forall_app. split; [exact Hbs|].
    constructor; [discriminate | constructor].
Qed.

Lemma scan_fold_nonempty (thr : Q) (l : list stitch) (st : scan_state) :
  nonempty_blocks (fst (fst st)) ->
  nonempty_blocks (fst (fst (fold_left (scan_step thr) l st))).
Proof.
  revert st. induction l as [|s l IH]; intros st Hst; [exact Hst|].
  simpl. apply IH, scan_step_nonempty, Hst.
Qed.

Lemma scan_finish_nonempty (st : scan_state) :
  nonempty_blocks (fst (fst st)) -> nonempty_blocks (scan_finish st).
Proof.
  destruct st as [[bs cur] last]. simpl. intro Hbs.
  destruct cur as [|sg cur]; [exact Hbs|].
  apply Forall_app. split; [exact Hbs|].
  constructor; [discriminate | constructor].
Qed.

(** C10. Every block of the extractor's output holds at least one segment,
    whatever the stitch sequence; consecutive COLOR_CHANGE records and a
    COLOR_CHANGE followed only by non-drawing commands leave no empty block
    behind. *)
Theorem extractor_blocks_nonempty :
  (forall (thr : Q) (pattern : EmbPattern),
     Forall (fun b : block => (1 <= length b)%nat)
            (pattern_to_blocks_clean thr pattern))
  /\ blocks_of_stitches JUMP_DISTANCE_THRESHOLD
       [(0, 0, STITCH); (1, 0, STITCH); (1, 0, COLOR_CHANGE);
        (1, 0, COLOR_CHANGE); (2, 0, STITCH); (3, 0, STITCH);
        (3, 0, COLOR_CHANGE); (9, 9, JUMP); (9, 9, END)]
     = [[(0, 0, 1, 0)]; [(2, 0, 3, 0)]].
Proof.
  split; [|reflexivity].
  intros thr pattern. unfold pattern_to_blocks_clean, blocks_of_stitches.
  assert (Hne : nonempty_blocks
                  (scan_finish (fold_left (scan_step thr) (stitches pattern)
                                          scan_init))).
  { apply scan_finish_nonempty, scan_fold_nonempty. constructor. }
  eapply Forall_impl; [exact Hne|]. intros b Hb.
  destruct b; [congruence | simpl; lia].
Qed.

(** *** Counting blocks *)

Lemma scan_step_length (thr : Q) (st : scan_state) (s : stitch) :
  (length (fst (fst (scan_step thr st s)))
   <= length (fst (fst st)) + color_change_count [s])%nat.
Proof.
  destruct st as [[bs cur] last], s as [[x y] cmd].
  unfold color_change_count, COLOR_CHANGE. simpl.
  destruct (cmd =? 0)%Z eqn:E0.
  - destruct last as [[x0 y0]|]; [destruct (sqrt_gt _ _)|]; simpl; lia.
  - destruct (cmd =? 5)%Z; simpl; [|lia].
    destruct cur; simpl; [lia|]. rewrite length_app. simpl. lia.
Qed.

Lemma color_change_count_cons (s : stitch) (l : list stitch) :
  color_change_count (s :: l)
  = (color_change_count [s] + color_change_count l)%nat.
Proof.
  unfold color_change_count. simpl.
  destruct (snd s =? COLOR_CHANGE)%Z; reflexivity.
Qed.

Lemma scan_fold_length (thr : Q) (l : list stitch) (st : scan_state) :
  (length (fst (fst (fold_left (scan_step thr) l st)))
   <= length (fst (fst st)) + color_change_count l)%nat.
Proof.
  revert st. induction l as [|s l IH]; intro st.
  - unfold color_change_count. simpl. lia.
  - simpl fold_left. rewrite color_change_count_cons.
    specialize (IH (scan_step thr st s)).
    pose proof (scan_step_length thr st s). lia.
Qed.

Lemma scan_finish_length (st : scan_state) :
  (length (scan_finish st) <= length (fst (fst st)) + 1)%nat.
Proof.
  destruct st as [[bs cur] last]. simpl.
  destruct cur; [lia|]. rewrite length_app. simpl. lia.
Qed.

Lemma blocks_le_color_changes (thr : Q) (l : list stitch) :
  (length (blocks_of_stitches thr l) <= color_change_count l + 1)%nat.
Proof.
  unfold blocks_of_stitches.
  pose proof (scan_finish_length (fold_left (scan_step thr) l scan_init)).
  pose proof (scan_fold_length thr l scan_init) as Hf. simpl in Hf. lia.
Qed.

Lemma normalize_blocks_length (bs : list block) (padding canvas : Q) :
  length (fst (normalize_blocks bs padding canvas)) = length bs.
Proof.
  unfold normalize_blocks. destruct (endpoints bs); simpl; [reflexivity|].
  apply length_map.
Qed.

Lemma striped_design_count (n : nat) :
  color_change_count (striped_design n) = n.
Proof.
  induction n as [|n IH]; [reflexivity|].
  change (color_change_count (striped_design (S n)))
    with (S (color_change_count (striped_design n))).
  rewrite IH. reflexivity.
Qed.

(** *** Real distances *)

(** A sufficient test on rationals for [euclid ... < thr]. *)
Lemma within_by_squares (thr x0 y0 x y : Q) :
  Qlt_bool 0 thr && Qlt_bool (dist2 x0 y0 x y) (thr * thr) = true ->
  (euclid x0 y0 x y < Q2R thr)%R.
Proof.
  rewrite andb_true_iff, !Qlt_bool_iff. intros [Hpos Hsq].
  apply Qlt_Rlt in Hpos, Hsq. rewrite Q2R_mult in Hsq.
  replace (Q2R 0) with 0%R in Hpos by (unfold Q2R; simpl; lra).
  rewrite euclid_dist2.
  rewrite <- (sqrt_square (Q2R thr)) by lra.
  apply sqrt_lt_1_alt. split; [|exact Hsq].
  pose proof (dist2_nonneg x0 y0 x y) as Hn. apply Qle_Rle in Hn.
  replace (Q2R 0) with 0%R in Hn by (unfold Q2R; simpl; lra). exact Hn.
Qed.

(** ** The extractor in binary64 *)








(** The converse failure: a move shorter than 45 whose computed distance is
    the float after 45.0, and which is not drawn. *)
Lemma short_move_not_drawn :
  let x0 := Binary64.of_scaled (-4097) (-60) in
  let y0 := Binary64.of_scaled (-2049) (-60) in
  let x := Binary64.of_scaled 5673309509424704 (-47) in
  let y := Binary64.of_scaled 5629499616526335 (-48) in
  exists qx0 qy0 qx qy,
    exact x0 = Some qx0 /\ exact y0 = Some qy0
    /\ exact x = Some qx /\ exact y = Some qy
    /\ (euclid qx0 qy0 qx qy < 45)%R
    /\ computed_dist x0 y0 x y = Binary64.of_scaled 6333186975989761 (-47)
    /\ Binary64.pattern_to_blocks_clean Binary64.JUMP_DISTANCE_THRESHOLD
         [(x0, y0, STITCH); (x, y, STITCH)] = [].
Proof.
  intros x0 y0 x y. do 4 eexists.
  split; [reflexivity|]. split; [reflexivity|].
  split; [reflexivity|]. split; [reflexivity|]. split.
  - replace 45%R with (Q2R 45) by (unfold Q2R; simpl; lra).
    apply within_by_squares. vm_compute. reflexivity.
  - split; vm_compute; reflexivity.
Qed.

(** *** Runs of stitches without a jump *)






(** *** No jump is drawn *)




(** ** The canvas normalizer *)

Lemma py_min_spec (xs : list Q) :
  forall x : Q,
    In (py_min x xs) (x :: xs)
    /\ (forall v, In v (x :: xs) -> py_min x xs <= v).
Proof.
  induction xs as [|a xs IH]; intro x.
  - split; [left; reflexivity|].
    intros v [<- | []]. apply Qle_refl.
  - unfold py_min. cbn [fold_left].
    fold (py_min (if Qlt_bool a x then a else x) xs).
    destruct (IH (if Qlt_bool a x then a else x)) as [Hin Hle].
    split.
    + destruct Hin as [Heq | Hin]; [|right; right; exact Hin].
      rewrite <- Heq. destruct (Qlt_bool a x); [right; left | left];
        reflexivity.
    + intros v Hv.
      assert (Hm : py_min (if Qlt_bool a x then a else x) xs
                   <= (if Qlt_bool a x then a else x))
        by (apply Hle; left; reflexivity).
      destruct (Qlt_bool a x) eqn:E.
      * apply Qlt_bool_iff in E.
        destruct Hv as [<- | [<- | Hv]]; [lra | lra |].
        apply Hle. right. exact Hv.
      * apply Qlt_bool_false_iff in E.
        destruct Hv as [<- | [<- | Hv]]; [lra | lra |].
        apply Hle. right. exact Hv.
Qed.

Lemma py_max_spec (xs : list Q) :
  forall x : Q,
    In (py_max x xs) (x :: xs)
    /\ (forall v, In v (x :: xs) -> v <= py_max x xs).
Proof.
  induction xs as [|a xs IH]; intro x.
  - split; [left; reflexivity|].
    intros v [<- | []]. apply Qle_refl.
  - unfold py_max. cbn [fold_left].
    fold (py_max (if Qlt_bool x a then a else x) xs).
    destruct (IH (if Qlt_bool x a then a else x)) as [Hin Hle].
    split.
    + destruct Hin as [Heq | Hin]; [|right; right; exact Hin].
      rewrite <- Heq. destruct (Qlt_bool x a); [right; left | left];
        reflexivity.
    + intros v Hv.
      assert (Hm : (if Qlt_bool x a then a else x)
                   <= py_max (if Qlt_bool x a then a else x) xs)
        by (apply Hle; left; reflexivity).
      destruct (Qlt_bool x a) eqn:E.
      * apply Qlt_bool_iff in E.
        destruct Hv as [<- | [<- | Hv]]; [lra | lra |].
        apply Hle. right. exact Hv.
      * apply Qlt_bool_false_iff in E.
        destruct Hv as [<- | [<- | Hv]]; [lra | lra |].
        apply Hle. right. exact Hv.
Qed.

Lemma py_or_one_pos (a : Q) : 0 <= a -> 0 < py_or a 1.
Proof.
  intro Ha. unfold py_or. destruct (Qeq_bool a 0) eqn:E; [reflexivity|].
  apply Qeq_bool_neq in E. destruct (Qlt_le_dec 0 a) as [Hlt | Hle];
    [exact Hlt|].
  exfalso. apply E. lra.
Qed.

Lemma py_max2_spec (a b : Q) :
  a <= py_max2 a b /\ b <= py_max2 a b
  /\ (py_max2 a b = a \/ py_max2 a b = b).
Proof.
  unfold py_max2. case_Qlt_bool.
  - repeat split; [lra | lra | right; reflexivity].
  - repeat split; [lra | lra | left; reflexivity].
Qed.

(** The bounding box of [norm_frame] encloses every endpoint, and its
    corners come from endpoints. *)
Lemma norm_frame_bbox (p0 : Q * Q) (ps : list (Q * Q)) (padding canvas : Q) :
  let f := norm_frame p0 ps padding canvas in
  (forall pt, In pt (p0 :: ps) ->
     (minx f <= fst pt /\ fst pt <= maxx f)
     /\ (miny f <= snd pt /\ snd pt <= maxy f))
  /\ In (minx f) (map fst (p0 :: ps)) /\ In (maxx f) (map fst (p0 :: ps))
  /\ In (miny f) (map snd (p0 :: ps)) /\ In (maxy f) (map snd (p0 :: ps)).
Proof.
  cbn [norm_frame minx maxx miny maxy map].
  destruct (py_min_spec (map fst ps) (fst p0)) as [Hi1 Hl1].
  destruct (py_max_spec (map fst ps) (fst p0)) as [Hi2 Hl2].
  destruct (py_min_spec (map snd ps) (snd p0)) as [Hi3 Hl3].
  destruct (py_max_spec (map snd ps) (snd p0)) as [Hi4 Hl4].
  repeat split; try assumption.
  - apply Hl1. change (In (fst pt) (map fst (p0 :: ps))).
    apply in_map. assumption.
  - apply Hl2. change (In (fst pt) (map fst (p0 :: ps))).
    apply in_map. assumption.
  - apply Hl3. change (In (snd pt) (map snd (p0 :: ps))).
    apply in_map. assumption.
  - apply Hl4. change (In (snd pt) (map snd (p0 :: ps))).
    apply in_map. assumption.
Qed.

Lemma norm_frame_extents (p0 : Q * Q) (ps : list (Q * Q))
  (padding canvas : Q) :
  let f := norm_frame p0 ps padding canvas in
  0 <= maxx f - minx f /\ 0 <= maxy f - miny f.
Proof.
  intro f.
  destruct (norm_frame_bbox p0 ps padding canvas) as [Hb _].
  destruct (Hb p0 (or_introl eq_refl)) as [[Hx1 Hx2] [Hy1 Hy2]].
  fold f in Hx1, Hx2, Hy1, Hy2. split; lra.
Qed.

Lemma int_point_coords (zs : list (Z * Z)) (v : Q) :
  In v (map fst (map int_point zs)) \/ In v (map snd (map int_point zs)) ->
  exists a : Z, v = inject_Z a.
Proof.
  rewrite !map_map, !in_map_iff.
  intros [[pt [Hv _]] | [pt [Hv _]]]; subst v; simpl; eauto.
Qed.

Lemma int_extent_or_one (a b : Z) :
  0 <= inject_Z a - inject_Z b ->
  py_or (inject_Z a - inject_Z b) 1 == Qmax (inject_Z a - inject_Z b) 1.
Proof.
  intro Hpos. unfold py_or.
  destruct (Qeq_bool (inject_Z a - inject_Z b) 0) eqn:E.
  - apply Qeq_bool_iff in E. rewrite Q.max_r; [reflexivity | lra].
  - apply Qeq_bool_neq in E.
    assert (H1 : 1 <= inject_Z a - inject_Z b).
    { unfold Qle, Qeq, Qminus, Qplus, Qopp, inject_Z in *. simpl in *. lia. }
    rewrite Q.max_l; [reflexivity | exact H1].
Qed.

(** C6, as the code has it. For every non-empty list of endpoints, the
    width used in the scale computation is [maxx - minx] when that extent is
    not zero and 1 when it is exactly zero, and likewise the height; both are
    positive, so the scale never divides by zero.  When the coordinates are
    integers this is max(extent, 1). *)
Theorem zero_extent_replaced_by_one :
  (forall (p0 : Q * Q) (ps : list (Q * Q)) (padding canvas : Q),
     let f := norm_frame p0 ps padding canvas in
     w f = (if Qeq_bool (maxx f - minx f) 0 then 1 else maxx f - minx f)
     /\ h f = (if Qeq_bool (maxy f - miny f) 0 then 1 else maxy f - miny f)
     /\ 0 < w f /\ 0 < h f /\ 0 < py_max2 (w f) (h f)
     /\ scale f = (canvas - 2 * padding) / py_max2 (w f) (h f))
  /\ (forall (z0 : Z * Z) (zs : list (Z * Z)) (padding canvas : Q),
        let f := norm_frame (int_point z0) (map int_point zs)
                            padding canvas in
        w f == Qmax (maxx f - minx f) 1
        /\ h f == Qmax (maxy f - miny f) 1).
Proof.
  split.
  - intros p0 ps padding canvas f.
    destruct (norm_frame_extents p0 ps padding canvas) as [Hx Hy].
    fold f in Hx, Hy.
    assert (Hw : 0 < w f) by (apply py_or_one_pos; exact Hx).
    assert (Hh : 0 < h f) by (apply py_or_one_pos; exact Hy).
    destruct (py_max2_spec (w f) (h f)) as [Hm _].
    repeat split; try reflexivity; try assumption. lra.
  - intros z0 zs padding canvas f.
    destruct (norm_frame_extents (int_point z0) (map int_point zs)
                                 padding canvas) as [Hx Hy].
    destruct (norm_frame_bbox (int_point z0) (map int_point zs)
                              padding canvas)
      as [_ [H1 [H2 [H3 H4]]]].
    fold f in Hx, Hy, H1, H2, H3, H4.
    change (int_point z0 :: map int_point zs)
      with (map int_point (z0 :: zs)) in H1, H2, H3, H4.
    destruct (int_point_coords _ _ (or_introl H1)) as [a Ha].
    destruct (int_point_coords _ _ (or_introl H2)) as [b Hb].
    destruct (int_point_coords _ _ (or_intror H3)) as [c Hc].
    destruct (int_point_coords _ _ (or_intror H4)) as [d Hd].
    change (w f) with (py_or (maxx f - minx f) 1).
    change (h f) with (py_or (maxy f - miny f) 1).
    rewrite Ha, Hb in Hx |- *. rewrite Hc, Hd in Hy |- *.
    split; apply int_extent_or_one; assumption.
Qed.

(** C6, as stated, fails: an extent of one half is kept, not replaced
    by 1. *)
Lemma half_extent_not_replaced :
  ~ (forall (p0 : Q * Q) (ps : list (Q * Q)) (padding canvas : Q),
       let f := norm_frame p0 ps padding canvas in
       w f == Qmax (maxx f - minx f) 1
       /\ h f == Qmax (maxy f - miny f) 1).
Proof.
  intro Hall.
  destruct (Hall (0, 0) [(1 # 2, 0)] 40 900) as [Hw _].
  vm_compute in Hw. discriminate Hw.
Qed.

Lemma endpoints_normalized (f : frame) (padding : Q) (bs : list block) :
  endpoints (map (map (norm_segment f padding)) bs)
  = map (norm_point f padding) (endpoints bs).
Proof.
  unfold endpoints. induction bs as [|b bs IH]; [reflexivity|].
  cbn [map flat_map]. rewrite map_app, IH. f_equal.
  clear IH. induction b as [|sg b IHb]; [reflexivity|].
  cbn [map flat_map]. rewrite map_app, IHb. f_equal.
  destruct sg as [[[x1 y1] x2] y2]. reflexivity.
Qed.




Lemma normalized_endpoints (bs : list block) (padding canvas : Q)
  (p0 : Q * Q) (ps : list (Q * Q)) :
  endpoints bs = p0 :: ps ->
  endpoints (fst (normalize_blocks bs padding canvas))
  = map (norm_point (norm_frame p0 ps padding canvas) padding) (p0 :: ps).
Proof.
  intro He. unfold normalize_blocks. rewrite He. cbn [fst].
  rewrite endpoints_normalized, He. reflexivity.
Qed.




(** The values of that run: the scale is 5495463831017570 * 2^-47, the
    second endpoint lands on the abscissa 7564639999098881 * 2^-43, and
    [canvas - padding] is 7564639999098880 * 2^-43, that is 860. *)
Lemma rounding_exceeds_canvas_values :
  Binary64.normalize_blocks
    [[(Binary64.of_Z 0, Binary64.of_Z 0, Binary64.of_Z 21, Binary64.of_Z 1)]]
    (Binary64.of_Z 40) (Binary64.of_Z 900)
  = ([[(Binary64.of_Z 40, Binary64.of_Z 40,
        S754_finite false 7564639999098881 (-43),
        S754_finite false 5562481682615345 (-46))]],
     Binary64.of_Z 900)
  /\ Binary64.div (Binary64.of_Z 820) (Binary64.of_Z 21)
     = S754_finite false 5495463831017570 (-47)
  /\ Binary64.sub (Binary64.of_Z 900) (Binary64.of_Z 40)
     = S754_finite false 7564639999098880 (-43)
  /\ Binary64.of_Z 860 = S754_finite false 7564639999098880 (-43).
Proof. repeat split; vm_compute; reflexivity. Qed.

(** ** Colour parsing *)

(** A boolean property of characters holds of all of them when it holds of
    the 256 code points. *)
Lemma all_chars (P : ascii -> bool) :
  forallb (fun n => P (ascii_of_nat n)) (seq 0 256) = true ->
  forall c : ascii, P c = true.
Proof.
  intros Hall c. rewrite forallb_forall in Hall.
  rewrite <- (ascii_nat_embedding c). apply Hall, in_seq.
  pose proof (nat_ascii_bounded c). lia.
Qed.

Lemma hex_digit_plain (c : ascii) :
  is_hex_digit c = true -> is_space c = false /\ is_hash c = false.
Proof.
  intro Hc.
  pose proof (all_chars
                (fun c => implb (is_hex_digit c)
                                (negb (is_space c) && negb (is_hash c)))
                ltac:(vm_compute; reflexivity) c) as Hall.
  cbv beta in Hall. rewrite Hc in Hall. cbn [implb] in Hall.
  apply andb_true_iff in Hall. destruct Hall as [H1 H2].
  apply negb_true_iff in H1, H2. split; assumption.
Qed.

Lemma string_forall_list (p : ascii -> bool) (s : string) :
  string_forall p s = forallb p (list_ascii_of_string s).
Proof.
  induction s as [|c s IH]; simpl; [reflexivity|]. rewrite IH. reflexivity.
Qed.

Lemma string_rev_involutive (s : string) : string_rev (string_rev s) = s.
Proof.
  unfold string_rev.
  rewrite list_ascii_of_string_of_list_ascii, rev_involutive.
  apply string_of_list_ascii_of_string.
Qed.

Lemma string_forall_rev (p : ascii -> bool) (s : string) :
  string_forall p (string_rev s) = string_forall p s.
Proof.
  rewrite !string_forall_list. unfold string_rev.
  rewrite list_ascii_of_string_of_list_ascii.
  generalize (list_ascii_of_string s). intro l.
  destruct (forallb p l) eqn:E.
  - rewrite forallb_forall in *. intros x Hx. apply E, in_rev, Hx.
  - destruct (forallb p (rev l)) eqn:E'; [|reflexivity].
    rewrite forallb_forall in E'.
    assert (forallb p l = true) as Habs; [|congruence].
    apply forallb_forall. intros x Hx. apply E', in_rev.
    rewrite rev_involutive. exact Hx.
Qed.

(** Stripping characters that a string does not contain changes nothing. *)
Lemma lstrip_absent (p q : ascii -> bool) (s : string) :
  (forall c, q c = true -> p c = false) ->
  string_forall q s = true -> lstrip p s = s.
Proof.
  intros Hpq Hs. destruct s as [|c s]; [reflexivity|].
  simpl in *. apply andb_true_iff in Hs. destruct Hs as [Hc _].
  rewrite (Hpq c Hc). reflexivity.
Qed.

Lemma strip_absent (p q : ascii -> bool) (s : string) :
  (forall c, q c = true -> p c = false) ->
  string_forall q s = true -> strip p s = s.
Proof.
  intros Hpq Hs. unfold strip, rstrip.
  rewrite (lstrip_absent p q s Hpq Hs).
  rewrite (lstrip_absent p q (string_rev s) Hpq).
  - apply string_rev_involutive.
  - rewrite string_forall_rev. exact Hs.
Qed.

Lemma trimmed_hex_id (s : string) :
  string_forall is_hex_digit s = true -> trimmed_hex s = s.
Proof.
  intro Hs. unfold trimmed_hex.
  rewrite (strip_absent is_space is_hex_digit s); [|apply hex_digit_plain|];
    [|exact Hs].
  apply (lstrip_absent is_hash is_hex_digit); [apply hex_digit_plain|exact Hs].
Qed.

Lemma double_chars_length (s : string) :
  String.length (double_chars s) = (2 * String.length s)%nat.
Proof.
  induction s as [|c s IH]; simpl; [reflexivity|]. rewrite IH. lia.
Qed.

Lemma double_chars_forall (p : ascii -> bool) (s : string) :
  string_forall p (double_chars s) = string_forall p s.
Proof.
  induction s as [|c s IH]; simpl; [reflexivity|]. rewrite IH.
  destruct (p c); reflexivity.
Qed.

(** The test made by [hex_to_rgb], in terms of the trimmed input. *)
Lemma clean_hex_valid (s : string) :
  negb (String.length (clean_hex s) =? 6)%nat
  || negb (fullmatch_hex6 (clean_hex s))
  = negb (hex_3_or_6 (trimmed_hex s)).
Proof.
  unfold clean_hex, hex_3_or_6, fullmatch_hex6. fold (trimmed_hex s).
  destruct (String.length (trimmed_hex s) =? 3)%nat eqn:E3.
  - rewrite double_chars_length, double_chars_forall.
    apply Nat.eqb_eq in E3. rewrite E3. simpl.
    destruct (string_forall is_hex_digit (trimmed_hex s)); reflexivity.
  - simpl.
    destruct (String.length (trimmed_hex s) =? 6)%nat; simpl;
      [|reflexivity].
    destruct (string_forall is_hex_digit (trimmed_hex s)); reflexivity.
Qed.

Lemma hex_to_rgb_cases (s : string) :
  hex_to_rgb s
  = if hex_3_or_6 (trimmed_hex s)
    then Ok (int16 (substring 0 2 (clean_hex s)),
             int16 (substring 2 2 (clean_hex s)),
             int16 (substring 4 2 (clean_hex s)))
    else Raise (HTTPException 400 ("Invalid color: " ++ s)).
Proof.
  unfold hex_to_rgb. rewrite clean_hex_valid.
  destruct (hex_3_or_6 (trimmed_hex s)); reflexivity.
Qed.

Lemma clean_hex_short (h : string) :
  String.length h = 3%nat ->
  string_forall is_hex_digit h = true ->
  clean_hex h = double_chars h /\ clean_hex (double_chars h) = double_chars h.
Proof.
  intros Hlen Hhex. unfold clean_hex.
  fold (trimmed_hex h). fold (trimmed_hex (double_chars h)).
  rewrite (trimmed_hex_id h Hhex).
  rewrite (trimmed_hex_id (double_chars h))
    by (rewrite double_chars_forall; exact Hhex).
  rewrite double_chars_length, Hlen. split; reflexivity.
Qed.

(** C9, as the code has it. ["fff"] and ["ffffff"] both parse to
    (255, 255, 255); a string of three hexadecimal digits parses, and parses
    the same as the string with every digit doubled; and [hex_to_rgb] raises
    the status-400 exception whose detail is ["Invalid color: "] followed by
    the value it was given exactly when that value, with surrounding white
    space and then all leading ['#'] removed, is not 3 or 6 hexadecimal
    digits. *)
Theorem hex_to_rgb_three_or_six_digits :
  hex_to_rgb "fff" = Ok (255, 255, 255)%Z
  /\ hex_to_rgb "ffffff" = Ok (255, 255, 255)%Z
  /\ hex_to_rgb "zzz" = Raise (HTTPException 400 "Invalid color: zzz")
  /\ (forall h : string,
        String.length h = 3%nat ->
        string_forall is_hex_digit h = true ->
        hex_to_rgb h = hex_to_rgb (double_chars h)
        /\ exists rgb, hex_to_rgb h = Ok rgb)
  /\ (forall s : string,
        hex_to_rgb s
        = if hex_3_or_6 (trimmed_hex s)
          then Ok (int16 (substring 0 2 (clean_hex s)),
                   int16 (substring 2 2 (clean_hex s)),
                   int16 (substring 4 2 (clean_hex s)))
          else Raise (HTTPException 400 ("Invalid color: " ++ s))).
Proof.
  split; [reflexivity|]. split; [reflexivity|]. split; [reflexivity|].
  split; [|exact hex_to_rgb_cases].
  intros h Hlen Hhex.
  destruct (clean_hex_short h Hlen Hhex) as [H1 H2].
  assert (Hv1 : hex_3_or_6 (trimmed_hex h) = true).
  { rewrite (trimmed_hex_id h Hhex). unfold hex_3_or_6.
    rewrite Hlen, Hhex. reflexivity. }
  assert (Hv2 : hex_3_or_6 (trimmed_hex (double_chars h)) = true).
  { rewrite trimmed_hex_id by (rewrite double_chars_forall; exact Hhex).
    unfold hex_3_or_6.
    rewrite double_chars_length, Hlen, double_chars_forall, Hhex.
    reflexivity. }
  rewrite !hex_to_rgb_cases, Hv1, Hv2, H1, H2.
  split; [reflexivity | eexists; reflexivity].
Qed.

Lemma hex_to_rgb_three_or_six_digits_witness :
  String.length "a1B" = 3%nat
  /\ string_forall is_hex_digit "a1B" = true
  /\ hex_to_rgb "a1B" = hex_to_rgb (double_chars "a1B")
  /\ exists rgb, hex_to_rgb "a1B" = Ok rgb.
Proof.
  split; [reflexivity|]. split; [reflexivity|].
  apply (proj1 (proj2 (proj2 (proj2 hex_to_rgb_three_or_six_digits))));
    reflexivity.
Defined.

(** C9, as stated, fails: after one leading ['#'] is removed, ["##fff"] is
    not 3 or 6 hexadecimal digits, yet it is accepted, every leading ['#']
    being removed; [" fff"] is accepted likewise. *)
Lemma hex_to_rgb_accepts_untrimmed :
  ~ (forall s : string,
       hex_3_or_6 (strip_one_hash s) = false ->
       exists e, hex_to_rgb s = Raise e).
Proof.
  intro Hall.
  destruct (Hall "##fff" eq_refl) as [e He].
  vm_compute in He. discriminate He.
Qed.

(** ** Colour resolution *)

Lemma hex_digit_char_spec (n : Z) :
  (0 <= n < 16)%Z ->
  is_hex_digit (hex_digit_char n) = true
  /\ hex_digit_value (hex_digit_char n) = n.
Proof.
  intro Hn.
  assert (Hall : forallb nibble_ok (map Z.of_nat (seq 0 16)) = true)
    by (vm_compute; reflexivity).
  rewrite forallb_forall in Hall.
  assert (Hin : In n (map Z.of_nat (seq 0 16))).
  { apply in_map_iff. exists (Z.to_nat n).
    split; [lia | apply in_seq; lia]. }
  apply Hall in Hin. unfold nibble_ok in Hin.
  apply andb_true_iff in Hin. destruct Hin as [Hhex Hval].
  apply Z.eqb_eq in Hval. split; assumption.
Qed.

Lemma nibble_range (x : Z) : (0 <= Z.land x 15 < 16)%Z.
Proof.
  change 15%Z with (Z.ones 4). rewrite Z.land_ones by lia.
  apply Z.mod_pos_bound. reflexivity.
Qed.

Lemma two_nibbles (x : Z) :
  (Z.land (Z.shiftr x 4) 15 * 16 + Z.land x 15 = Z.land x 255)%Z.
Proof.
  change 15%Z with (Z.ones 4). change 255%Z with (Z.ones 8).
  rewrite !Z.land_ones by lia. rewrite Z.shiftr_div_pow2 by lia.
  change (2 ^ 8)%Z with (2 ^ 4 * 2 ^ 4)%Z.
  rewrite Z.rem_mul_r by lia. lia.
Qed.

Lemma hex_or_hash_plain (c : ascii) :
  hex_or_hash c = true -> is_space c = false.
Proof.
  intro Hc.
  pose proof (all_chars (fun c => implb (hex_or_hash c) (negb (is_space c)))
                        ltac:(vm_compute; reflexivity) c) as Hall.
  cbv beta in Hall. rewrite Hc in Hall. cbn [implb] in Hall.
  apply negb_true_iff in Hall. exact Hall.
Qed.

(** Six hexadecimal digits after a ['#'] parse to three bytes. *)
Lemma hex_to_rgb_six_digits (d5 d4 d3 d2 d1 d0 : ascii) :
  is_hex_digit d5 = true -> is_hex_digit d4 = true ->
  is_hex_digit d3 = true -> is_hex_digit d2 = true ->
  is_hex_digit d1 = true -> is_hex_digit d0 = true ->
  hex_to_rgb (String "#" (String d5 (String d4 (String d3 (String d2
               (String d1 (String d0 EmptyString)))))))
  = Ok ((hex_digit_value d5 * 16 + hex_digit_value d4)%Z,
        (hex_digit_value d3 * 16 + hex_digit_value d2)%Z,
        (hex_digit_value d1 * 16 + hex_digit_value d0)%Z).
Proof.
  intros H5 H4 H3 H2 H1 H0.
  set (h := String d5 (String d4 (String d3 (String d2 (String d1
              (String d0 EmptyString)))))).
  assert (Hhex : string_forall is_hex_digit h = true).
  { unfold h. cbn [string_forall]. rewrite H5, H4, H3, H2, H1, H0.
    reflexivity. }
  assert (Htrim : trimmed_hex (String "#" h) = h).
  { unfold trimmed_hex.
    rewrite (strip_absent is_space hex_or_hash);
      [|apply hex_or_hash_plain|].
    - unfold h. cbn [lstrip]. change (is_hash "#") with true. cbn iota.
      rewrite (proj2 (hex_digit_plain d5 H5)). reflexivity.
    - unfold h, hex_or_hash. cbn [string_forall].
      rewrite H5, H4, H3, H2, H1, H0. reflexivity. }
  assert (Hclean : clean_hex (String "#" h) = h).
  { unfold clean_hex. fold (trimmed_hex (String "#" h)). rewrite Htrim.
    reflexivity. }
  rewrite hex_to_rgb_cases, Htrim, Hclean.
  unfold hex_3_or_6. rewrite Hhex.
  change ((String.length h =? 3)%nat || (String.length h =? 6)%nat) with true.
  cbn [andb]. unfold h, int16. cbn [substring list_ascii_of_string fold_left].
  reflexivity.
Qed.

(** A formatted thread colour parses back to its three bytes. *)
Lemma hex_to_rgb_format (c : Z) :
  hex_to_rgb (format_hash_06x c) = Ok (rgb_of_int c).
Proof.
  unfold format_hash_06x.
  destruct (hex_digit_char_spec _ (nibble_range (Z.shiftr c 20))) as [H5 V5].
  destruct (hex_digit_char_spec _ (nibble_range (Z.shiftr c 16))) as [H4 V4].
  destruct (hex_digit_char_spec _ (nibble_range (Z.shiftr c 12))) as [H3 V3].
  destruct (hex_digit_char_spec _ (nibble_range (Z.shiftr c 8))) as [H2 V2].
  destruct (hex_digit_char_spec _ (nibble_range (Z.shiftr c 4))) as [H1 V1].
  destruct (hex_digit_char_spec _ (nibble_range (Z.shiftr c 0))) as [H0 V0].
  rewrite hex_to_rgb_six_digits by assumption.
  rewrite V5, V4, V3, V2, V1, V0.
  unfold rgb_of_int. rewrite <- !two_nibbles.
  rewrite !Z.shiftr_shiftr by lia. rewrite Z.shiftr_0_r.
  reflexivity.
Qed.

Lemma lookup_map {A B} (f : A -> B) (l : list A) (i : nat) :
  map f l !! i = option_map f (l !! i).
Proof.
  revert i. induction l as [|a l IH]; intros [|i]; simpl; try reflexivity.
  apply IH.
Qed.

Lemma block_color_lookup (colors_hex fallback : list string) (i : nat) :
  block_color colors_hex fallback i
  = match colors_hex !! i with
    | Some c => hex_to_rgb c
    | None =>
        match fallback !! i with
        | Some c => hex_to_rgb c
        | None => Ok (0, 0, 0)%Z
        end
    end.
Proof.
  unfold block_color, index.
  destruct (i <? length colors_hex)%nat eqn:E1.
  - apply Nat.ltb_lt, lookup_lt_is_Some in E1. destruct E1 as [c Hc].
    rewrite Hc. reflexivity.
  - apply Nat.ltb_ge, lookup_ge_None in E1. rewrite E1.
    destruct (i <? length fallback)%nat eqn:E2.
    + apply Nat.ltb_lt, lookup_lt_is_Some in E2. destruct E2 as [c Hc].
      rewrite Hc. reflexivity.
    + apply Nat.ltb_ge, lookup_ge_None in E2. rewrite E2. reflexivity.
Qed.

Lemma extract_thread_colors_lookup (pattern : EmbPattern) (i : nat) :
  (i < MAX_BLOCKS)%nat ->
  extract_thread_colors pattern !! i
  = option_map (fun t => format_hash_06x (Z.land (color t) 16777215))
               (threadlist pattern !! i).
Proof.
  intro Hi. unfold extract_thread_colors.
  rewrite lookup_take_lt by exact Hi. apply lookup_map.
Qed.

Lemma draw_blocks_spec (colors_hex fallback : list string)
  (blocks : list block) :
  forall (i0 : nat) (ops : list draw_op),
    draw_blocks colors_hex fallback i0 blocks = Ok ops ->
    exists cols : list rgb,
      ops = concat (zip_with block_lines cols blocks)
      /\ length cols = length blocks
      /\ forall k col, cols !! k = Some col ->
                       block_color colors_hex fallback (i0 + k) = Ok col.
Proof.
  induction blocks as [|b blocks IH]; intros i0 ops Hd.
  - simpl in Hd. injection Hd as <-. exists []. repeat split.
    intros k col Hk. destruct k; discriminate Hk.
  - cbn [draw_blocks] in Hd.
    destruct (block_color colors_hex fallback i0) as [col0|e] eqn:Hc;
      [|discriminate Hd].
    cbn [rbind] in Hd.
    destruct (draw_blocks colors_hex fallback (S i0) blocks) as [rest|e]
      eqn:Hr; [|discriminate Hd].
    cbn [rbind] in Hd. injection Hd as <-.
    destruct (IH (S i0) rest Hr) as [cols [Hops [Hlen Hcols]]].
    exists (col0 :: cols). split; [|split].
    + simpl. rewrite Hops. reflexivity.
    + simpl. rewrite Hlen. reflexivity.
    + intros [|k] col Hk.
      * injection Hk as <-. rewrite Nat.add_0_r. exact Hc.
      * replace (i0 + S k)%nat with (S i0 + k)%nat by lia.
        apply Hcols. exact Hk.
Qed.

Lemma draw_blocks_ok (colors_hex fallback : list string)
  (blocks : list block) :
  forall i0 : nat,
    (forall k, (k < length blocks)%nat ->
               exists col, block_color colors_hex fallback (i0 + k) = Ok col) ->
    exists ops, draw_blocks colors_hex fallback i0 blocks = Ok ops.
Proof.
  induction blocks as [|b blocks IH]; intros i0 Hcols.
  - exists []. reflexivity.
  - cbn [draw_blocks].
    destruct (Hcols 0%nat) as [col Hcol]; [simpl; lia|].
    rewrite Nat.add_0_r in Hcol. rewrite Hcol. cbn [rbind].
    destruct (IH (S i0)) as [ops Hops].
    + intros k Hk. replace (S i0 + k)%nat with (i0 + S k)%nat by lia.
      apply Hcols. simpl. lia.
    + rewrite Hops. cbn [rbind]. eexists. reflexivity.
Qed.

Lemma render_blocks_capped (thr : Q) (pattern : EmbPattern) :
  (length (fst (render_blocks thr pattern)) <= MAX_BLOCKS)%nat.
Proof.
  unfold render_blocks. rewrite normalize_blocks_length, length_firstn. lia.
Qed.

Lemma native_block_color (pattern : EmbPattern) (i : nat) :
  (i < MAX_BLOCKS)%nat ->
  block_color [] (extract_thread_colors pattern) i
  = Ok match threadlist pattern !! i with
       | Some t => thread_rgb t
       | None => (0, 0, 0)%Z
       end.
Proof.
  intro Hi. rewrite block_color_lookup.
  rewrite extract_thread_colors_lookup by exact Hi.
  change (@nil string !! i) with (@None string).
  destruct (threadlist pattern !! i) as [t|]; [|reflexivity].
  simpl. apply hex_to_rgb_format.
Qed.

Lemma render_preview_png_ops (thr : Q) (pattern : EmbPattern)
  (bg_hex : string) (colors_hex : list string) (img : image) :
  render_preview_png thr pattern bg_hex colors_hex = Ok img ->
  exists cols : list rgb,
    img_ops img
    = concat (zip_with block_lines cols (fst (render_blocks thr pattern)))
      ++ watermark (snd (render_blocks thr pattern))
    /\ length cols = length (fst (render_blocks thr pattern))
    /\ forall i col,
         cols !! i = Some col ->
         block_color colors_hex (extract_thread_colors pattern) i = Ok col.
Proof.
  intro Hr. unfold render_preview_png in Hr.
  destruct (render_blocks thr pattern) as [blocks canvas].
  destruct (hex_to_rgb bg_hex) as [bg|e]; [|discriminate Hr].
  cbn [rbind] in Hr.
  destruct (draw_blocks colors_hex (extract_thread_colors pattern) 0 blocks)
    as [lines|e] eqn:Hd; [|discriminate Hr].
  cbn [rbind] in Hr. injection Hr as <-.
  destruct (draw_blocks_spec _ _ _ _ _ Hd) as [cols [Hops [Hlen Hcols]]].
  exists cols. cbn [fst snd img_ops]. rewrite Hops.
  split; [reflexivity|]. split; [exact Hlen | exact Hcols].
Qed.

(** C4. For block index [i] the renderer uses the override colour at [i]
    when the override list has one; otherwise the fallback colour at [i]
    when the fallback list has one; otherwise black.  A finished rendering
    is, block after block, one line of width 2 per segment, filled with the
    colour so resolved for the index of the block, and then the watermark;
    so every segment of block [i] is on the image as a line in the colour
    resolved for [i].  With an empty override list and a valid background
    the rendering finishes, and the lines of block [i] are filled with the
    colour of thread [i] of the pattern when that thread exists and with
    black otherwise. *)
Theorem block_color_resolution :
  (forall (colors_hex fallback : list string) (i : nat),
     block_color colors_hex fallback i
     = match colors_hex !! i with
       | Some c => hex_to_rgb c
       | None =>
           match fallback !! i with
           | Some c => hex_to_rgb c
           | None => Ok (0, 0, 0)%Z
           end
       end)
  /\ (forall (thr : Q) (pattern : EmbPattern) (bg_hex : string)
             (colors_hex : list string) (img : image),
        render_preview_png thr pattern bg_hex colors_hex = Ok img ->
        let blocks := fst (render_blocks thr pattern) in
        let canvas := snd (render_blocks thr pattern) in
        (exists cols : list rgb,
           length cols = length blocks
           /\ (forall i col,
                 cols !! i = Some col ->
                 block_color colors_hex (extract_thread_colors pattern) i
                 = Ok col)
           /\ img_ops img
              = concat (zip_with (fun col b => map (fun sg => Line sg col 2) b)
                                 cols blocks)
                ++ [Rectangle (0, canvas - 26, canvas, canvas) (0, 0, 0)%Z;
                    Text (10, canvas - 20)
                         "jnbvisualizer proof (preview only)"
                         (255, 255, 255)%Z])
        /\ (forall (i : nat) (b : block) (sg : segment),
              blocks !! i = Some b -> In sg b ->
              exists col,
                block_color colors_hex (extract_thread_colors pattern) i
                = Ok col
                /\ In (Line sg col 2) (img_ops img)))
  /\ (forall (thr : Q) (pattern : EmbPattern) (bg_hex : string) (bg : rgb),
        hex_to_rgb bg_hex = Ok bg ->
        let blocks := fst (render_blocks thr pattern) in
        let canvas := snd (render_blocks thr pattern) in
        let native i :=
          match threadlist pattern !! i with
          | Some t =>
              (Z.land (Z.shiftr (Z.land (color t) 16777215) 16) 255,
               Z.land (Z.shiftr (Z.land (color t) 16777215) 8) 255,
               Z.land (Z.land (color t) 16777215) 255)
          | None => (0, 0, 0)%Z
          end in
        exists img : image,
          render_preview_png thr pattern bg_hex [] = Ok img
          /\ img_background img = bg
          /\ img_ops img
             = concat (zip_with (fun col b => map (fun sg => Line sg col 2) b)
                                (map native (seq 0 (length blocks))) blocks)
               ++ [Rectangle (0, canvas - 26, canvas, canvas) (0, 0, 0)%Z;
                   Text (10, canvas - 20)
                        "jnbvisualizer proof (preview only)"
                        (255, 255, 255)%Z]).
Proof.
  split; [exact block_color_lookup|]. split.
  - intros thr pattern bg_hex colors_hex img Himg blocks canvas.
    destruct (render_preview_png_ops _ _ _ _ _ Himg)
      as [cols [Hops [Hlen Hcols]]].
    fold blocks canvas in Hops, Hlen. split.
    + exists cols. split; [exact Hlen|]. split; [exact Hcols|]. exact Hops.
    + intros i b sg Hb Hsg.
      destruct (lookup_lt_is_Some_2 cols i) as [col Hcol].
      { rewrite Hlen. eapply lookup_lt_Some, Hb. }
      exists col. split; [apply Hcols, Hcol|].
      rewrite Hops. apply in_or_app. left. apply in_concat.
      exists (block_lines col b). split.
      * apply list_elem_of_In, list_elem_of_lookup. exists i.
        rewrite lookup_zip_with, Hcol. simpl. rewrite Hb. reflexivity.
      * unfold block_lines. apply in_map_iff. exists sg. auto.
  - intros thr pattern bg_hex bg Hbg blocks canvas native.
    pose proof (render_blocks_capped thr pattern) as Hcap. fold blocks in Hcap.
    assert (Hrun : exists img,
               render_preview_png thr pattern bg_hex [] = Ok img
               /\ img_background img = bg).
    { unfold render_preview_png. subst blocks.
      destruct (render_blocks thr pattern) as [blocks canvas'].
      cbn [fst] in Hcap. rewrite Hbg. cbn [rbind].
      destruct (draw_blocks_ok [] (extract_thread_colors pattern) blocks 0)
        as [ops Hops].
      - intros k Hk. eexists. apply native_block_color. simpl. lia.
      - rewrite Hops. cbn [rbind]. eexists. split; reflexivity. }
    destruct Hrun as [img [Himg Hback]].
    destruct (render_preview_png_ops _ _ _ _ _ Himg)
      as [cols [Hops [Hlen Hcols]]].
    fold blocks canvas in Hops, Hlen.
    exists img. split; [exact Himg|]. split; [exact Hback|].
    rewrite Hops. f_equal. f_equal.
    change (zip_with block_lines cols blocks
            = zip_with block_lines (map native (seq 0 (length blocks)))
                       blocks).
    f_equal. apply list_eq. intro i.
    rewrite lookup_map, <- Hlen.
    destruct (cols !! i) as [col|] eqn:Hcol.
    + pose proof (lookup_lt_Some _ _ _ Hcol) as Hlt.
      rewrite lookup_seq_lt by exact Hlt. cbn [option_map Nat.add].
      specialize (Hcols i col Hcol).
      rewrite native_block_color in Hcols by lia.
      injection Hcols as <-. reflexivity.
    + apply lookup_ge_None in Hcol.
      rewrite lookup_seq_ge by exact Hcol. reflexivity.
Qed.

Lemma block_color_resolution_witness :
  let pattern :=
    mkEmbPattern [(0, 0, STITCH); (27, 36, STITCH)]
                 [mkEmbThread 255 "blue" "1" "x"] in
  hex_to_rgb "#fff" = Ok (255, 255, 255)%Z
  /\ exists img : image,
       render_preview_png JUMP_DISTANCE_THRESHOLD pattern "#fff" [] = Ok img
       /\ img_background img = (255, 255, 255)%Z
       /\ exists sg : segment,
            img_ops img
            = [Line sg (0, 0, 255)%Z 2;
               Rectangle (0, 900 - 26, 900, 900) (0, 0, 0)%Z;
               Text (10, 900 - 20) "jnbvisualizer proof (preview only)"
                    (255, 255, 255)%Z].
Proof.
  intro pattern. split; [reflexivity|].
  destruct (proj2 (proj2 block_color_resolution) JUMP_DISTANCE_THRESHOLD
                  pattern "#fff" (255, 255, 255)%Z eq_refl)
    as [img [Himg [Hback Hops]]].
  exists img. split; [exact Himg|]. split; [exact Hback|].
  eexists. rewrite Hops. reflexivity.
Defined.

(** ** The recolor writer *)

Lemma hex_to_rgb_int_cases (s : string) :
  hex_to_rgb_int s
  = if hex_3_or_6 (trimmed_hex s)
    then Ok (int16 (clean_hex s))
    else Raise (HTTPException 400 ("Invalid color: " ++ s)).
Proof.
  unfold hex_to_rgb_int. rewrite clean_hex_valid.
  destruct (hex_3_or_6 (trimmed_hex s)); reflexivity.
Qed.

(** The loop over [range(a, a + k)], with the indices in range: either it
    ends and has rewritten the colour of exactly the threads it visited, or
    it raises what [hex_to_rgb_int] raised on one of the colours. *)
Lemma recolor_loop_spec (colors_hex : list string) (k : nat) :
  forall (a : nat) (tl : list EmbThread),
    (a + k <= length tl)%nat ->
    (a + k <= length colors_hex)%nat ->
    match recolor_loop (seq a k) colors_hex tl with
    | Ok tl' =>
        length tl' = length tl
        /\ (forall i, (i < a \/ a + k <= i)%nat -> tl' !! i = tl !! i)
        /\ (forall i t,
              (a <= i < a + k)%nat ->
              tl !! i = Some t ->
              exists c v,
                colors_hex !! i = Some c
                /\ hex_to_rgb_int c = Ok v
                /\ tl' !! i = Some (set_color t v))
    | Raise e =>
        exists i c,
          (a <= i < a + k)%nat
          /\ colors_hex !! i = Some c
          /\ hex_to_rgb_int c = Raise e
    end.
Proof.
  induction k as [|k IH]; intros a tl Htl Hcs.
  - cbn [seq recolor_loop]. split; [reflexivity|].
    split; [intros; reflexivity|]. intros i t Hi. lia.
  - cbn [seq recolor_loop]. unfold index.
    destruct (lookup_lt_is_Some_2 colors_hex a) as [c Hc]; [lia|].
    destruct (lookup_lt_is_Some_2 tl a) as [t0 Ht0]; [lia|].
    rewrite Hc. cbn [rbind].
    destruct (hex_to_rgb_int c) as [v|e] eqn:Hv; cbn [rbind].
    + rewrite Ht0. cbn [rbind].
      specialize (IH (S a) (<[a := set_color t0 v]> tl)).
      rewrite length_insert in IH.
      specialize (IH ltac:(lia) ltac:(lia)).
      destruct (recolor_loop (seq (S a) k) colors_hex
                             (<[a := set_color t0 v]> tl)) as [tl'|e].
      * destruct IH as [Hlen [Hout Hin]].
        split; [exact Hlen|]. split.
        -- intros i Hi. rewrite Hout by lia.
           apply list_lookup_insert_ne. lia.
        -- intros i t Hi Ht. destruct (decide (i = a)) as [-> | Hne].
           ++ exists c, v. split; [exact Hc|]. split; [exact Hv|].
              rewrite Hout by lia. rewrite list_lookup_insert_eq by lia.
              congruence.
           ++ apply Hin; [lia|].
              rewrite list_lookup_insert_ne by lia. exact Ht.
      * destruct IH as [i [c' [Hi [Hc' He]]]].
        exists i, c'. split; [lia|]. split; assumption.
    + exists a, c. split; [lia|]. split; assumption.
Qed.

Section RecolorProperties.

Variable GENERATED_DIR : string.
Variable splitext_root : string -> string.
Variable path_join : string -> string -> string.

(** C7. When the decoded master pattern has an empty thread list, the
    recolor writer raises the exception with detail
    ["Master PES has no thread list."] and leaves the files as they were:
    nothing is written. *)
Theorem no_thread_list_no_write (disk : gmap string EmbPattern)
  (pattern : EmbPattern) (colors_hex : list string)
  (proof_id client_tag design_file : string) :
  threadlist pattern = [] ->
  generate_recolored_pes GENERATED_DIR splitext_root path_join disk pattern
                         colors_hex proof_id client_tag design_file
  = (Raise (HTTPException 500 "Master PES has no thread list."), disk).
Proof.
  intro Hempty. unfold generate_recolored_pes. rewrite Hempty. reflexivity.
Qed.

(** C8. For a pattern with a non-empty thread list of length T and a
    supplied colour list of length C, let n = min T C.  When the supplied
    colours parse, the recolor writer writes one file.  Whenever it writes,
    the file holds the pattern with the same stitches and a thread list of
    the same length in which, for every [i < n], the [color] of thread [i]
    is the integer parsed from supplied colour [i] while its description,
    catalog number and brand are those of the original thread [i], and in
    which thread [i] is the original thread for every [i >= n].  It raises
    only what parsing one of the first [n] supplied colours raises, and then
    writes nothing. *)
Theorem recolor_overwrites_prefix (disk : gmap string EmbPattern)
  (pattern : EmbPattern) (colors_hex : list string)
  (proof_id client_tag design_file : string) :
  threadlist pattern <> [] ->
  let n := Nat.min (length (threadlist pattern)) (length colors_hex) in
  let out_path :=
    path_join GENERATED_DIR
              (out_name splitext_root design_file client_tag proof_id) in
  let r :=
    generate_recolored_pes GENERATED_DIR splitext_root path_join disk pattern
                           colors_hex proof_id client_tag design_file in
  (Forall (fun c => hex_3_or_6 (trimmed_hex c) = true) colors_hex ->
   exists tl', r = (Ok out_path,
                    <[out_path := mkEmbPattern (stitches pattern) tl']> disk))
  /\ match r with
     | (Ok path, disk') =>
         exists tl' : list EmbThread,
           path = out_path
           /\ disk' = <[out_path := mkEmbPattern (stitches pattern) tl']> disk
           /\ length tl' = length (threadlist pattern)
           /\ (forall i t,
                 (i < n)%nat ->
                 threadlist pattern !! i = Some t ->
                 exists c v t',
                   colors_hex !! i = Some c
                   /\ hex_to_rgb_int c = Ok v
                   /\ tl' !! i = Some t'
                   /\ color t' = v
                   /\ description t' = description t
                   /\ catalog_number t' = catalog_number t
                   /\ brand t' = brand t)
           /\ (forall i, (n <= i)%nat -> tl' !! i = threadlist pattern !! i)
     | (Raise e, disk') =>
         disk' = disk
         /\ exists i c,
              (i < n)%nat
              /\ colors_hex !! i = Some c
              /\ hex_to_rgb_int c = Raise e
     end.
Proof.
  intros Hne n out_path r.
  pose proof (recolor_loop_spec colors_hex n 0 (threadlist pattern)) as Hspec.
  specialize (Hspec ltac:(unfold n; lia) ltac:(unfold n; lia)).
  assert (Hr : r = match recolor_loop (seq 0 n) colors_hex
                                      (threadlist pattern) with
                   | Raise e => (Raise e, disk)
                   | Ok tl =>
                       (Ok out_path,
                        <[out_path := mkEmbPattern (stitches pattern) tl]>
                          disk)
                   end).
  { unfold r, generate_recolored_pes.
    destruct (threadlist pattern) as [|t0 tl] eqn:Htl; [congruence|].
    reflexivity. }
  rewrite Hr. clear Hr.
  destruct (recolor_loop (seq 0 n) colors_hex (threadlist pattern))
    as [tl'|e].
  - split; [intros _; exists tl'; reflexivity|].
    destruct Hspec as [Hlen [Hout Hin]].
    exists tl'. split; [reflexivity|]. split; [reflexivity|].
    split; [exact Hlen|]. split.
    + intros i t Hi Ht.
      destruct (Hin i t ltac:(lia) Ht) as [c [v [Hc [Hv Hset]]]].
      exists c, v, (set_color t v). repeat (split; [assumption || reflexivity|]).
      reflexivity.
    + intros i Hi. apply Hout. right. simpl. exact Hi.
  - destruct Hspec as [i [c [Hi [Hc He]]]]. split.
    + intro Hvalid. exfalso.
      pose proof (proj1 (Forall_lookup _ _) Hvalid i c Hc) as Hok.
      cbv beta in Hok. rewrite hex_to_rgb_int_cases, Hok in He.
      discriminate He.
    + split; [reflexivity|]. exists i, c.
      split; [lia|]. split; assumption.
Qed.

End RecolorProperties.

Lemma no_thread_list_no_write_witness :
  let pattern := mkEmbPattern [(0, 0, STITCH); (1, 0, STITCH)] [] in
  threadlist pattern = []
  /\ generate_recolored_pes "generated" (fun s => substring 0 1 s)
       (fun a b => (a ++ "/" ++ b)%string) ∅ pattern ["#ff0000"]
       "JNB-0A1B2C3D" "client" "A.pes"
     = (Raise (HTTPException 500 "Master PES has no thread list."), ∅).
Proof.
  intro pattern. split; [reflexivity|].
  apply no_thread_list_no_write. reflexivity.
Defined.

Lemma recolor_overwrites_prefix_witness :
  let pattern :=
    mkEmbPattern [(0, 0, STITCH); (1, 0, STITCH)]
      [mkEmbThread 1 "a" "1" "x"; mkEmbThread 2 "b" "2" "x";
       mkEmbThread 3 "c" "3" "x"] in
  threadlist pattern <> []
  /\ exists tl',
       generate_recolored_pes "generated" (fun s => substring 0 1 s)
         (fun a b => (a ++ "/" ++ b)%string) ∅ pattern ["#ff0000"; "0f0"]
         "JNB-0A1B2C3D" "client" "A.pes"
       = (Ok "generated/A__client__JNB-0A1B2C3D.pes",
          <["generated/A__client__JNB-0A1B2C3D.pes"
            := mkEmbPattern (stitches pattern) tl']> ∅).
Proof.
  intro pattern.
  assert (Hne : threadlist pattern <> []) by discriminate.
  split; [exact Hne|].
  apply (proj1 (recolor_overwrites_prefix "generated"
                  (fun s => substring 0 1 s)
                  (fun a b => (a ++ "/" ++ b)%string) ∅ pattern
                  ["#ff0000"; "0f0"] "JNB-0A1B2C3D" "client" "A.pes" Hne)).
  repeat constructor.
Defined.

(** * Further properties of the extractor *)

Lemma held_segments_finish (st : scan_state) :
  concat (scan_finish st) = held_segments st.
Proof.
  destruct st as [[bs cur] last]. unfold held_segments. simpl.
  destruct cur as [|sg cur]; [rewrite app_nil_r; reflexivity|].
  rewrite concat_app. simpl. rewrite app_nil_r. reflexivity.
Qed.

(** One step, seen on the held segments: a drawn STITCH adds one segment at
    the end, every other record adds nothing. *)
Lemma held_segments_step (thr : Q) (st : scan_state) (s : stitch) :
  held_segments (scan_step thr st s) = held_segments st
  \/ exists x0 y0,
       snd st = Some (x0, y0) /\ snd s = STITCH
       /\ sqrt_gt (dist2 x0 y0 (fst (fst s)) (snd (fst s))) thr = false
       /\ held_segments (scan_step thr st s)
          = held_segments st ++ [(x0, y0, fst (fst s), snd (fst s))].
Proof.
  destruct st as [[bs cur] last], s as [[x y] cmd].
  unfold held_segments. simpl.
  destruct (cmd =? 0)%Z eqn:E0.
  - apply Z.eqb_eq in E0. subst cmd.
    destruct last as [[x0 y0]|]; [|left; reflexivity].
    fold (dist2 x0 y0 x y).
    destruct (sqrt_gt (dist2 x0 y0 x y) thr) eqn:Eg; [left; reflexivity|].
    right. exists x0, y0. simpl. rewrite app_assoc. auto.
  - destruct (cmd =? 5)%Z; [|left; reflexivity].
    destruct cur as [|sg cur]; [left; reflexivity|].
    left. simpl. rewrite concat_app. simpl. rewrite !app_nil_r. reflexivity.
Qed.

Lemma scan_step_last (thr : Q) (st : scan_state) (s : stitch) :
  snd (scan_step thr st s)
  = if (snd s =? STITCH)%Z then Some (fst s) else None.
Proof.
  destruct st as [[bs cur] last], s as [[x y] cmd]. unfold STITCH. simpl.
  destruct (cmd =? 0)%Z.
  - destruct last as [[x0 y0]|]; [destruct (sqrt_gt _ _)|]; reflexivity.
  - destruct (cmd =? 5)%Z; [destruct cur|]; reflexivity.
Qed.

(** The finished blocks a scan starts with are only ever extended. *)
Lemma scan_step_prefix (thr : Q) (bs : list block) (cur : block)
  (last : option (Q * Q)) (s : stitch) :
  scan_step thr (bs, cur, last) s
  = (bs ++ fst (fst (scan_step thr ([], cur, last) s)),
     snd (fst (scan_step thr ([], cur, last) s)),
     snd (scan_step thr ([], cur, last) s)).
Proof.
  destruct s as [[x y] cmd]. simpl.
  destruct (cmd =? 0)%Z.
  - destruct last as [[x0 y0]|]; [destruct (sqrt_gt _ _)|]; simpl;
      rewrite app_nil_r; reflexivity.
  - destruct (cmd =? 5)%Z; [destruct cur|]; simpl;
      rewrite ?app_nil_r; reflexivity.
Qed.

Lemma scan_fold_prefix (thr : Q) (l : list stitch) :
  forall (bs : list block) (cur : block) (last : option (Q * Q)),
    fold_left (scan_step thr) l (bs, cur, last)
    = (bs ++ fst (fst (fold_left (scan_step thr) l ([], cur, last))),
       snd (fst (fold_left (scan_step thr) l ([], cur, last))),
       snd (fold_left (scan_step thr) l ([], cur, last))).
Proof.
  induction l as [|s l IH]; intros bs cur last.
  - simpl. rewrite app_nil_r. reflexivity.
  - cbn [fold_left]. rewrite scan_step_prefix.
    destruct (scan_step thr ([], cur, last) s) as [[b1 c1] l1].
    cbn [fst snd]. rewrite IH. rewrite (IH b1 c1 l1).
    cbn [fst snd]. rewrite app_assoc. reflexivity.
Qed.

Lemma scan_finish_prefix (bs : list block) (st : scan_state) :
  scan_finish (bs ++ fst (fst st), snd (fst st), snd st)
  = bs ++ scan_finish st.
Proof.
  destruct st as [[b c] la]. simpl. destruct c; [reflexivity|].
  rewrite app_assoc. reflexivity.
Qed.

(** *** Blocks and colour changes *)

Lemma blocks_split (thr : Q) (l1 l2 : list stitch) (x y : Q) :
  blocks_of_stitches thr (l1 ++ (x, y, COLOR_CHANGE) :: l2)
  = blocks_of_stitches thr l1 ++ blocks_of_stitches thr l2.
Proof.
  unfold blocks_of_stitches. rewrite fold_left_app. cbn [fold_left].
  destruct (fold_left (scan_step thr) l1 scan_init) as [[b1 c1] la1].
  replace (scan_step thr (b1, c1, la1) (x, y, COLOR_CHANGE))
    with (scan_finish (b1, c1, la1), @nil segment, @None (Q * Q))
    by (simpl; destruct c1; reflexivity).
  rewrite scan_fold_prefix, scan_finish_prefix. reflexivity.
Qed.

Lemma color_runs_length (l : list stitch) :
  length (color_runs l) = (color_change_count l + 1)%nat.
Proof.
  induction l as [|s l IH]; [reflexivity|].
  rewrite color_change_count_cons. unfold color_change_count at 1.
  cbn [color_runs List.filter].
  destruct (snd s =? COLOR_CHANGE)%Z.
  - cbn [length]. rewrite IH. lia.
  - destruct (color_runs l) as [|r rs]; cbn [length] in *; lia.
Qed.

(** The first run holds no COLOR_CHANGE; it is the whole sequence, or it is
    followed by a COLOR_CHANGE and the remaining runs are those of what
    comes next. *)
Lemma color_runs_head (l : list stitch) :
  exists r rs,
    color_runs l = r :: rs
    /\ color_change_count r = 0%nat
    /\ ((rs = [] /\ l = r)
        \/ exists x y l2,
             l = r ++ (x, y, COLOR_CHANGE) :: l2 /\ rs = color_runs l2).
Proof.
  induction l as [|s l IH].
  - exists [], []. split; [reflexivity|]. split; [reflexivity|]. left. auto.
  - cbn [color_runs]. destruct (snd s =? COLOR_CHANGE)%Z eqn:Es.
    + exists [], (color_runs l). split; [reflexivity|].
      split; [reflexivity|]. right.
      destruct s as [[x y] cmd]. cbn [snd] in Es. apply Z.eqb_eq in Es.
      subst cmd. exists x, y, l. auto.
    + destruct IH as [r [rs [Hr [Hcc Hrest]]]]. rewrite Hr.
      exists (s :: r), rs. split; [reflexivity|]. split.
      * rewrite color_change_count_cons, Hcc.
        unfold color_change_count. cbn [List.filter]. rewrite Es.
        reflexivity.
      * destruct Hrest as [[-> ->] | [x [y [l2 [-> ->]]]]]; [left; auto|].
        right. exists x, y, l2. auto.
Qed.

Lemma run_blocks_count (thr : Q) (r : list stitch) :
  color_change_count r = 0%nat ->
  length (blocks_of_stitches thr r) = if draws thr r then 1%nat else 0%nat.
Proof.
  intro Hcc. pose proof (blocks_le_color_changes thr r) as Hle.
  rewrite Hcc in Hle. unfold draws, total_segments.
  assert (Hne : nonempty_blocks (blocks_of_stitches thr r)).
  { apply scan_finish_nonempty, scan_fold_nonempty. constructor. }
  destruct (blocks_of_stitches thr r) as [|b [|b' bs]];
    [reflexivity | | simpl in Hle; lia].
  apply Forall_cons in Hne. destruct Hne as [Hb _].
  destruct b as [|sg b]; [congruence | reflexivity].
Qed.

Lemma blocks_count_runs (thr : Q) (l : list stitch) :
  length (blocks_of_stitches thr l)
  = length (List.filter (draws thr) (color_runs l)).
Proof.
  remember (length l) as n eqn:Hn.
  assert (Hlen : (length l <= n)%nat) by lia. clear Hn.
  revert l Hlen. induction n as [|n IH]; intros l Hlen.
  - destruct l; [reflexivity | simpl in Hlen; lia].
  - destruct (color_runs_head l) as [r [rs [Hr [Hcc Hrest]]]].
    rewrite Hr. cbn [List.filter].
    destruct Hrest as [[-> ->] | [x [y [l2 [-> ->]]]]].
    + rewrite run_blocks_count by exact Hcc.
      destruct (draws thr r); reflexivity.
    + rewrite blocks_split, length_app, run_blocks_count by exact Hcc.
      rewrite IH.
      * destruct (draws thr r); reflexivity.
      * rewrite length_app in Hlen. simpl in Hlen. lia.
Qed.

Lemma filter_all_length {A} (f : A -> bool) (l : list A) :
  length (List.filter f l) = length l <-> forallb f l = true.
Proof.
  induction l as [|a l IH]; [simpl; tauto|].
  cbn [List.filter forallb]. pose proof (filter_length_le f l) as Hle.
  destruct (f a); cbn [length andb].
  - rewrite <- IH. lia.
  - split; [lia | discriminate].
Qed.

(** C3, as the code has it. The block count reported by [get_block_count]
    is the number of non-empty blocks the extractor produces, capped at 20,
    and the renderer draws exactly that many blocks.  The colour changes cut
    the stitch sequence into colour-change count + 1 runs, and the extractor
    produces one block for each run out of which it gets a segment and none
    for the others: so the count never exceeds min(colour changes + 1, 20),
    and the number of blocks is colour changes + 1 exactly when every run
    is drawn.  A design of 26 drawn runs separated by 25 colour changes
    reports 20. *)
Theorem block_count_capped :
  (forall (thr : Q) (pattern : EmbPattern),
     get_block_count thr pattern
     = Nat.min (length (pattern_to_blocks_clean thr pattern)) 20
     /\ length (fst (render_blocks thr pattern))
        = get_block_count thr pattern
     /\ (get_block_count thr pattern
         <= Nat.min (color_change_count (stitches pattern) + 1) 20)%nat)
  /\ (forall (thr : Q) (pattern : EmbPattern),
        length (color_runs (stitches pattern))
        = (color_change_count (stitches pattern) + 1)%nat
        /\ length (pattern_to_blocks_clean thr pattern)
           = length (List.filter (draws thr) (color_runs (stitches pattern)))
        /\ get_block_count thr pattern
           = Nat.min (length (List.filter (draws thr)
                                          (color_runs (stitches pattern))))
                     20
        /\ (length (pattern_to_blocks_clean thr pattern)
            = (color_change_count (stitches pattern) + 1)%nat
            <-> forallb (draws thr) (color_runs (stitches pattern)) = true))
  /\ (forall (thr : Q) (pattern : EmbPattern),
        forallb (draws thr) (color_runs (stitches pattern)) = true ->
        get_block_count thr pattern
        = Nat.min (color_change_count (stitches pattern) + 1) 20)
  /\ (color_change_count (striped_design 25) = 25%nat
      /\ forallb (draws JUMP_DISTANCE_THRESHOLD)
                 (color_runs (striped_design 25)) = true
      /\ get_block_count JUMP_DISTANCE_THRESHOLD
           (mkEmbPattern (striped_design 25) []) = 20%nat).
Proof.
  assert (Hruns : forall (thr : Q) (pattern : EmbPattern),
             length (pattern_to_blocks_clean thr pattern)
             = (color_change_count (stitches pattern) + 1)%nat
             <-> forallb (draws thr) (color_runs (stitches pattern)) = true).
  { intros thr pattern. unfold pattern_to_blocks_clean.
    rewrite blocks_count_runs, <- color_runs_length.
    apply filter_all_length. }
  split; [|split; [|split]].
  - intros thr pattern. split; [reflexivity|]. split.
    + unfold render_blocks. rewrite normalize_blocks_length.
      rewrite length_firstn. unfold get_block_count. lia.
    + unfold get_block_count, pattern_to_blocks_clean, MAX_BLOCKS.
      pose proof (blocks_le_color_changes thr (stitches pattern)). lia.
  - intros thr pattern. split; [apply color_runs_length|].
    split; [apply blocks_count_runs|]. split; [|apply Hruns].
    unfold get_block_count, pattern_to_blocks_clean, MAX_BLOCKS.
    rewrite blocks_count_runs. reflexivity.
  - intros thr pattern Hall. apply Hruns in Hall.
    unfold get_block_count, MAX_BLOCKS. rewrite Hall. reflexivity.
  - split; [apply striped_design_count|].
    split; vm_compute; reflexivity.
Qed.

(** C3, as stated, fails.  Two consecutive colour changes close one block
    only: a design with two colour changes and two drawn runs reports 2
    blocks, not min(2 + 1, 20) = 3. *)
Lemma block_count_differs_from_color_changes_plus_one :
  ~ (forall pattern : EmbPattern,
       get_block_count JUMP_DISTANCE_THRESHOLD pattern
       = Nat.min (color_change_count (stitches pattern) + 1) MAX_BLOCKS).
Proof.
  intro Hall.
  specialize (Hall (mkEmbPattern
                      [(0, 0, STITCH); (1, 0, STITCH); (1, 0, COLOR_CHANGE);
                       (1, 0, COLOR_CHANGE); (2, 0, STITCH); (3, 0, STITCH)]
                      [])).
  vm_compute in Hall. discriminate Hall.
Qed.

(** X2. A COLOR_CHANGE record cuts the design in two: the blocks of the
    whole sequence are the blocks of what precedes it followed by the blocks
    of what follows it. *)
Theorem color_change_splits (thr : Q) (l1 l2 : list stitch) (x y : Q) :
  blocks_of_stitches thr (l1 ++ (x, y, COLOR_CHANGE) :: l2)
  = blocks_of_stitches thr l1 ++ blocks_of_stitches thr l2.
Proof.
  unfold blocks_of_stitches. rewrite fold_left_app. cbn [fold_left].
  destruct (fold_left (scan_step thr) l1 scan_init) as [[b1 c1] la1].
  assert (Hcc : scan_step thr (b1, c1, la1) (x, y, COLOR_CHANGE)
                = (scan_finish (b1, c1, la1), [], None))
    by (simpl; destruct c1; reflexivity).
  rewrite Hcc, scan_fold_prefix, scan_finish_prefix. reflexivity.
Qed.

Lemma held_segments_step_from (thr : Q) (st : scan_state) (s : stitch) :
  held_segments (scan_step thr st s)
  = held_segments st ++ held_segments (scan_step thr ([], [], snd st) s).
Proof.
  destruct st as [[bs cur] last], s as [[x y] cmd].
  unfold held_segments. simpl.
  destruct (cmd =? 0)%Z.
  - destruct last as [[x0 y0]|]; [destruct (sqrt_gt _ _)|]; simpl;
      rewrite ?app_nil_r, ?app_assoc; reflexivity.
  - destruct (cmd =? 5)%Z; [destruct cur|]; simpl;
      rewrite ?concat_app; simpl; rewrite ?app_nil_r; reflexivity.
Qed.

Lemma held_segments_fold_from (thr : Q) (l : list stitch) :
  forall st : scan_state,
    held_segments (fold_left (scan_step thr) l st)
    = held_segments st
      ++ held_segments (fold_left (scan_step thr) l ([], [], snd st)).
Proof.
  induction l as [|s l IH]; intro st.
  - simpl. unfold held_segments at 3. simpl. rewrite app_nil_r. reflexivity.
  - cbn [fold_left]. rewrite IH, held_segments_step_from.
    rewrite (IH (scan_step thr ([], [], snd st) s)).
    rewrite !scan_step_last. cbn [snd]. rewrite app_assoc. reflexivity.
Qed.

(** X3. A record that is not a STITCH draws nothing and nothing is drawn
    across it: the segments of the whole sequence are those of the part
    before it followed by those of the part after it. *)
Theorem non_stitch_separates (thr : Q) (l1 l2 : list stitch) (s : stitch) :
  snd s <> STITCH ->
  drawn_segments thr (l1 ++ s :: l2)
  = drawn_segments thr l1 ++ drawn_segments thr l2.
Proof.
  intro Hs. unfold drawn_segments, blocks_of_stitches.
  rewrite !held_segments_finish, fold_left_app. cbn [fold_left].
  rewrite held_segments_fold_from, scan_step_last.
  apply Z.eqb_neq in Hs. rewrite Hs. f_equal.
  destruct (held_segments_step thr (fold_left (scan_step thr) l1 scan_init) s)
    as [Heq | [x0 [y0 [_ [Habs _]]]]]; [exact Heq|].
  apply Z.eqb_neq in Hs. contradiction.
Qed.

Lemma non_stitch_separates_witness :
  drawn_segments JUMP_DISTANCE_THRESHOLD
    ([(0, 0, STITCH); (1, 0, STITCH)] ++ (1, 0, TRIM)
       :: [(2, 0, STITCH); (3, 0, STITCH)])
  = drawn_segments JUMP_DISTANCE_THRESHOLD [(0, 0, STITCH); (1, 0, STITCH)]
    ++ drawn_segments JUMP_DISTANCE_THRESHOLD
         [(2, 0, STITCH); (3, 0, STITCH)].
Proof.
  apply non_stitch_separates. discriminate.
Defined.

Lemma joins_app (pre l : list stitch) (sg : segment) :
  joins pre sg -> joins (pre ++ l) sg.
Proof.
  destruct sg as [[[x0 y0] x] y]. intros [l1 [l2 ->]].
  exists l1, (l2 ++ l). rewrite <- app_assoc. reflexivity.
Qed.

(** The scan after the records [pre]: the segments held join consecutive
    STITCH records of [pre], and the last point, when defined, is the
    position of the final record of [pre], a STITCH. *)
Lemma joins_fold (thr : Q) (l : list stitch) :
  forall (pre : list stitch) (st : scan_state),
    Forall (joins pre) (held_segments st) ->
    (forall p, snd st = Some p -> exists pre', pre = pre' ++ [(p, STITCH)]) ->
    Forall (joins (pre ++ l)) (held_segments (fold_left (scan_step thr) l st)).
Proof.
  induction l as [|s l IH]; intros pre st Hheld Hlast.
  - rewrite app_nil_r. exact Hheld.
  - cbn [fold_left].
    replace (pre ++ s :: l) with ((pre ++ [s]) ++ l)
      by (rewrite <- app_assoc; reflexivity).
    apply IH.
    + destruct (held_segments_step thr st s)
        as [Heq | [x0 [y0 [Hst [Hs [_ Heq]]]]]]; rewrite Heq.
      * eapply Forall_impl; [exact Hheld|]. intros sg. apply joins_app.
      * apply Forall_app. split.
        -- eapply Forall_impl; [exact Hheld|]. intros sg. apply joins_app.
        -- constructor; [|constructor].
           destruct (Hlast _ Hst) as [pre' ->].
           destruct s as [[x y] cmd]. simpl in Hs. subst cmd.
           exists pre', []. rewrite <- app_assoc. reflexivity.
    + intros p Hp. rewrite scan_step_last in Hp.
      destruct (snd s =? STITCH)%Z eqn:E; [|discriminate Hp].
      injection Hp as <-. apply Z.eqb_eq in E.
      exists pre. destruct s as [pt cmd]. simpl in E. subst cmd. reflexivity.
Qed.

(** X4. Every drawn segment joins two consecutive STITCH records of the
    input, from the earlier to the later: no point is invented and no
    segment spans another record. *)
Theorem drawn_segments_join_consecutive (thr : Q) (l : list stitch) :
  Forall (joins l) (drawn_segments thr l).
Proof.
  unfold drawn_segments, blocks_of_stitches. rewrite held_segments_finish.
  apply (joins_fold thr l [] scan_init); [constructor|].
  intros p Hp. discriminate Hp.
Qed.

Lemma count_stitch_cons (s : stitch) (l : list stitch) :
  count_stitch (s :: l)
  = ((if (snd s =? STITCH)%Z then 1 else 0) + count_stitch l)%nat.
Proof.
  unfold count_stitch. simpl. destruct (snd s =? STITCH)%Z; reflexivity.
Qed.

Lemma held_segments_count (thr : Q) (l : list stitch) :
  forall (st : scan_state) (k : nat),
    (length (held_segments st) <= Nat.pred k)%nat ->
    (forall p, snd st = Some p -> (1 <= k)%nat) ->
    (length (held_segments (fold_left (scan_step thr) l st))
     <= Nat.pred (k + count_stitch l))%nat.
Proof.
  induction l as [|s l IH]; intros st k Hk Hlast.
  - unfold count_stitch. simpl. rewrite Nat.add_0_r. exact Hk.
  - cbn [fold_left]. rewrite count_stitch_cons.
    replace (k + ((if (snd s =? STITCH)%Z then 1 else 0) + count_stitch l))%nat
      with ((k + (if (snd s =? STITCH)%Z then 1 else 0)) + count_stitch l)%nat
      by lia.
    apply IH.
    + destruct (held_segments_step thr st s)
        as [Heq | [x0 [y0 [Hst [Hs [_ Heq]]]]]]; rewrite Heq.
      * destruct (snd s =? STITCH)%Z; lia.
      * specialize (Hlast _ Hst). apply Z.eqb_eq in Hs. rewrite Hs.
        rewrite length_app. simpl. lia.
    + intros p Hp. rewrite scan_step_last in Hp.
      destruct (snd s =? STITCH)%Z; [lia | discriminate Hp].
Qed.

(** X5. With [n] STITCH records at most [n - 1] segments are drawn; a
    design with at most one STITCH record has no block at all. *)
Theorem segments_below_stitch_count (thr : Q) (l : list stitch) :
  (total_segments (blocks_of_stitches thr l) <= Nat.pred (count_stitch l))%nat
  /\ ((count_stitch l <= 1)%nat -> blocks_of_stitches thr l = []).
Proof.
  assert (Hle : (total_segments (blocks_of_stitches thr l)
                 <= Nat.pred (count_stitch l))%nat).
  { unfold total_segments, blocks_of_stitches.
    rewrite held_segments_finish.
    apply (held_segments_count thr l scan_init 0); [simpl; lia|].
    intros p Hp. discriminate Hp. }
  split; [exact Hle|]. intro Hfew.
  assert (Hne : nonempty_blocks (blocks_of_stitches thr l)).
  { apply scan_finish_nonempty, scan_fold_nonempty. constructor. }
  destruct (blocks_of_stitches thr l) as [|b bs]; [reflexivity|].
  exfalso. apply Forall_cons in Hne. destruct Hne as [Hb _].
  unfold total_segments in Hle. simpl in Hle. rewrite length_app in Hle.
  destruct b; [congruence | simpl in Hle; lia].
Qed.

(** * Further properties of the normalizer *)






(** X8. A design whose endpoints all share one abscissa is drawn on the
    vertical line at [padding], and likewise for a shared ordinate; a
    single-point design is drawn at ([padding], [padding]).  No division by
    zero occurs. *)
Theorem flat_axis_sits_at_padding (bs : list block) (padding canvas : Q) :
  (forall a : Q,
     Forall (fun pt => fst pt == a) (endpoints bs) ->
     Forall (fun pt => fst pt == padding)
            (endpoints (fst (normalize_blocks bs padding canvas))))
  /\ (forall b : Q,
        Forall (fun pt => snd pt == b) (endpoints bs) ->
        Forall (fun pt => snd pt == padding)
               (endpoints (fst (normalize_blocks bs padding canvas)))).
Proof.
  destruct (endpoints bs) as [|p0 ps] eqn:He.
  - unfold normalize_blocks. rewrite He. cbn [fst]. rewrite He.
    split; intros; constructor.
  - rewrite (normalized_endpoints bs padding canvas p0 ps He).
    destruct (norm_frame_bbox p0 ps padding canvas) as [_ [Hmx [_ [Hmy _]]]].
    set (f := norm_frame p0 ps padding canvas) in *.
    apply in_map_iff in Hmx, Hmy.
    destruct Hmx as [px [Hpx Hinx]]. destruct Hmy as [py [Hpy Hiny]].
    split; intros v Hall; rewrite List.Forall_forall in Hall;
      apply List.Forall_forall; intros q Hq; apply in_map_iff in Hq;
      destruct Hq as [pt [<- Hpt]]; unfold norm_point.
    + cbn [fst]. pose proof (Hall _ Hpt) as H1. pose proof (Hall _ Hinx) as H2.
      cbv beta in H1, H2. rewrite Hpx in H2. rewrite H1, H2. ring.
    + cbn [snd]. pose proof (Hall _ Hpt) as H1. pose proof (Hall _ Hiny) as H2.
      cbv beta in H1, H2. rewrite Hpy in H2. rewrite H1, H2. ring.
Qed.

(** * Further properties of colour parsing *)

Lemma hex_digit_value_range (c : ascii) : (0 <= hex_digit_value c < 16)%Z.
Proof.
  pose proof (all_chars
                (fun c => (0 <=? hex_digit_value c)%Z
                          && (hex_digit_value c <? 16)%Z)
                ltac:(vm_compute; reflexivity) c) as Hall.
  cbv beta in Hall. apply andb_true_iff in Hall. lia.
Qed.

Lemma land_byte (x : Z) : (0 <= Z.land x 255 <= 255)%Z.
Proof.
  change (Z.land x 255) with (Z.land x (Z.ones 8)).
  rewrite Z.land_ones by lia.
  pose proof (Z.mod_pos_bound x (2 ^ 8) ltac:(lia)) as Hb.
  change (2 ^ 8)%Z with 256%Z in *. lia.
Qed.

Lemma rgb_of_int_bytes (v : Z) :
  let '(r, g, b) := rgb_of_int v in
  (0 <= r <= 255 /\ 0 <= g <= 255 /\ 0 <= b <= 255)%Z.
Proof.
  unfold rgb_of_int. repeat split; apply land_byte.
Qed.

(** Six nibbles packed most significant first, and the three bytes of the
    packed number. *)
Lemma pack_unpack (a5 a4 a3 a2 a1 a0 : Z) :
  (0 <= a5 < 16)%Z -> (0 <= a4 < 16)%Z -> (0 <= a3 < 16)%Z ->
  (0 <= a2 < 16)%Z -> (0 <= a1 < 16)%Z -> (0 <= a0 < 16)%Z ->
  let v := ((((((0 * 16 + a5) * 16 + a4) * 16 + a3) * 16 + a2) * 16 + a1)
            * 16 + a0)%Z in
  (0 <= v < 16777216)%Z
  /\ rgb_of_int v
     = (((0 * 16 + a5) * 16 + a4)%Z, ((0 * 16 + a3) * 16 + a2)%Z,
        ((0 * 16 + a1) * 16 + a0)%Z).
Proof.
  intros H5 H4 H3 H2 H1 H0 v. split; [unfold v; lia|].
  unfold rgb_of_int. change 255%Z with (Z.ones 8).
  rewrite !Z.land_ones, !Z.shiftr_div_pow2 by lia.
  change (2 ^ 8)%Z with 256%Z. change (2 ^ 16)%Z with 65536%Z.
  assert (Hr : ((v / 65536) mod 256 = (0 * 16 + a5) * 16 + a4)%Z)
    by (unfold v; Z.div_mod_to_equations; lia).
  assert (Hg : ((v / 256) mod 256 = (0 * 16 + a3) * 16 + a2)%Z)
    by (unfold v; Z.div_mod_to_equations; lia).
  assert (Hb : (v mod 256 = (0 * 16 + a1) * 16 + a0)%Z)
    by (unfold v; Z.div_mod_to_equations; lia).
  rewrite Hr, Hg, Hb. reflexivity.
Qed.

Lemma rgb_of_int_inj (v c : Z) :
  (0 <= v < 16777216)%Z -> (0 <= c < 16777216)%Z ->
  rgb_of_int v = rgb_of_int c -> v = c.
Proof.
  intros Hv Hc Heq. unfold rgb_of_int in Heq.
  change 255%Z with (Z.ones 8) in Heq.
  rewrite !Z.land_ones, !Z.shiftr_div_pow2 in Heq by lia.
  change (2 ^ 8)%Z with 256%Z in Heq. change (2 ^ 16)%Z with 65536%Z in Heq.
  injection Heq as Hr Hg Hb.
  Z.div_mod_to_equations. lia.
Qed.

Lemma clean_hex_six (s : string) :
  hex_3_or_6 (trimmed_hex s) = true ->
  String.length (clean_hex s) = 6%nat
  /\ string_forall is_hex_digit (clean_hex s) = true.
Proof.
  intro Hv. pose proof (clean_hex_valid s) as Hc. rewrite Hv in Hc.
  cbn [negb] in Hc. apply orb_false_iff in Hc. destruct Hc as [Hlen Hfull].
  apply negb_false_iff in Hlen, Hfull. apply Nat.eqb_eq in Hlen.
  unfold fullmatch_hex6 in Hfull. apply andb_true_iff in Hfull.
  split; [exact Hlen | apply Hfull].
Qed.

(** On an accepted string the integer of [hex_to_rgb_int] is a 24-bit
    number whose bytes are the triple of [hex_to_rgb]. *)
Lemma hex_to_rgb_of_int (s : string) (v : Z) :
  hex_to_rgb_int s = Ok v ->
  (0 <= v < 16777216)%Z /\ hex_to_rgb s = Ok (rgb_of_int v).
Proof.
  rewrite hex_to_rgb_int_cases, hex_to_rgb_cases.
  destruct (hex_3_or_6 (trimmed_hex s)) eqn:Hv; [|discriminate].
  destruct (clean_hex_six s Hv) as [Hlen _].
  destruct (clean_hex s) as [|d5 [|d4 [|d3 [|d2 [|d1 [|d0 [|d h]]]]]]];
    try discriminate Hlen.
  unfold int16. cbn [substring list_ascii_of_string fold_left].
  destruct (pack_unpack _ _ _ _ _ _
              (hex_digit_value_range d5) (hex_digit_value_range d4)
              (hex_digit_value_range d3) (hex_digit_value_range d2)
              (hex_digit_value_range d1) (hex_digit_value_range d0))
    as [Hrange Hrgb].
  intro Hok. injection Hok as <-.
  split; [exact Hrange | rewrite Hrgb; reflexivity].
Qed.

(** X9. [hex_to_rgb_int] and [hex_to_rgb] accept the same strings and raise
    the same exception on the others; on an accepted string the integer is a
    24-bit colour 0xRRGGBB whose three bytes are the triple of [hex_to_rgb],
    each between 0 and 255. *)
Theorem hex_to_rgb_int_agrees (s : string) :
  match hex_to_rgb_int s with
  | Ok v =>
      (0 <= v < 16777216)%Z
      /\ hex_to_rgb s = Ok (rgb_of_int v)
      /\ let '(r, g, b) := rgb_of_int v in
         (0 <= r <= 255 /\ 0 <= g <= 255 /\ 0 <= b <= 255)%Z
  | Raise e => hex_to_rgb s = Raise e
  end.
Proof.
  destruct (hex_to_rgb_int s) as [v|e] eqn:Hs.
  - destruct (hex_to_rgb_of_int s v Hs) as [Hrange Hrgb].
    split; [exact Hrange|]. split; [exact Hrgb | apply rgb_of_int_bytes].
  - rewrite hex_to_rgb_int_cases in Hs. rewrite hex_to_rgb_cases.
    destruct (hex_3_or_6 (trimmed_hex s)); [discriminate Hs|].
    injection Hs as <-. reflexivity.
Qed.

(** A 24-bit colour printed as ["#%06x"] reads back through
    [hex_to_rgb_int]. *)
Lemma hex_to_rgb_int_format (c : Z) :
  (0 <= c < 16777216)%Z ->
  hex_to_rgb_int (format_hash_06x c) = Ok c.
Proof.
  intro Hc.
  destruct (hex_to_rgb_int (format_hash_06x c)) as [v|e] eqn:Hp.
  - destruct (hex_to_rgb_of_int _ _ Hp) as [Hv Heq].
    rewrite hex_to_rgb_format in Heq.
    assert (Hsame : rgb_of_int v = rgb_of_int c) by congruence.
    f_equal. apply rgb_of_int_inj; assumption.
  - exfalso. rewrite hex_to_rgb_int_cases in Hp.
    pose proof (hex_to_rgb_format c) as Hf. rewrite hex_to_rgb_cases in Hf.
    destruct (hex_3_or_6 (trimmed_hex (format_hash_06x c)));
      discriminate.
Qed.

(** X10. [extract_thread_colors] lists the first 20 threads, in order; each
    entry is seven characters long and reads back, through
    [hex_to_rgb_int], as the low 24 bits of its thread's colour and, through
    [hex_to_rgb], as that colour's three bytes. *)
Theorem thread_colors_read_back (pattern : EmbPattern) :
  length (extract_thread_colors pattern)
  = Nat.min (length (threadlist pattern)) MAX_BLOCKS
  /\ forall i e,
       extract_thread_colors pattern !! i = Some e ->
       exists t,
         threadlist pattern !! i = Some t
         /\ String.length e = 7%nat
         /\ hex_to_rgb_int e = Ok (Z.land (color t) 16777215)
         /\ hex_to_rgb e = Ok (thread_rgb t).
Proof.
  split.
  - unfold extract_thread_colors. rewrite length_firstn, length_map. lia.
  - intros i e He. unfold extract_thread_colors in He.
    apply lookup_take_Some in He. destruct He as [He _].
    rewrite lookup_map in He.
    destruct (threadlist pattern !! i) as [t|]; [|discriminate He].
    simpl in He. injection He as <-. exists t.
    split; [reflexivity|]. split; [reflexivity|]. split.
    + apply hex_to_rgb_int_format.
      change 16777215%Z with (Z.ones 24). rewrite Z.land_ones by lia.
      apply Z.mod_pos_bound. reflexivity.
    + apply hex_to_rgb_format.
Qed.

(** * Properties of the colour list parser *)

Lemma check_colors_ok (arr : list string) :
  match check_colors arr with
  | Ok _ => Forall (fun c => exists v, hex_to_rgb_int c = Ok v) arr
  | Raise e => exists c, In c arr /\ hex_to_rgb_int c = Raise e
  end.
Proof.
  induction arr as [|c arr IH]; simpl; [constructor|].
  destruct (hex_to_rgb_int c) as [v|e] eqn:Hc; cbn [rbind].
  - destruct (check_colors arr) as [u|e].
    + constructor; [exists v; exact Hc | exact IH].
    + destruct IH as [c' [Hin He]]. exists c'. split; [right|]; assumption.
  - exists c. split; [left; reflexivity | exact Hc].
Qed.

Lemma hex_to_rgb_int_bad_request (c : string) (e : exn) :
  hex_to_rgb_int c = Raise e -> is_bad_request e.
Proof.
  rewrite hex_to_rgb_int_cases.
  destruct (hex_3_or_6 (trimmed_hex c)); [discriminate|].
  intro He. injection He as <-. eexists. reflexivity.
Qed.

(** What [parse_colors_csv] returns is accepted by both parsers; what it
    raises has status 400. *)
Lemma parse_colors_csv_raises (colors_csv : string) :
  match parse_colors_csv colors_csv with
  | Ok arr =>
      Forall (fun c => (exists v, hex_to_rgb_int c = Ok v)
                       /\ (exists rgb, hex_to_rgb c = Ok rgb)) arr
  | Raise e => is_bad_request e
  end.
Proof.
  unfold parse_colors_csv.
  destruct (stripped_pieces colors_csv) as [|p ps];
    [eexists; reflexivity|].
  pose proof (check_colors_ok (firstn MAX_BLOCKS (p :: ps))) as Hck.
  destruct (check_colors (firstn MAX_BLOCKS (p :: ps))) as [u|e];
    cbn [rbind].
  - eapply Forall_impl; [exact Hck|]. intros c [v Hv].
    split; [exists v; exact Hv|].
    destruct (hex_to_rgb_of_int c v Hv) as [_ Hrgb]. eexists. exact Hrgb.
  - destruct Hck as [c [_ He]]. eapply hex_to_rgb_int_bad_request, He.
Qed.

(** X11. When [parse_colors_csv] returns, its list is the first 20
    non-blank, stripped pieces of the input: it has between 1 and 20
    entries and [hex_to_rgb_int] and [hex_to_rgb] accept every one of them.
    When it raises, the exception has status 400. *)
Theorem parse_colors_csv_outcome (colors_csv : string) :
  match parse_colors_csv colors_csv with
  | Ok arr =>
      arr = firstn MAX_BLOCKS (stripped_pieces colors_csv)
      /\ (1 <= length arr <= MAX_BLOCKS)%nat
      /\ Forall (fun c => (exists v, hex_to_rgb_int c = Ok v)
                          /\ (exists rgb, hex_to_rgb c = Ok rgb)) arr
  | Raise e => is_bad_request e
  end.
Proof.
  pose proof (parse_colors_csv_raises colors_csv) as Hout.
  unfold parse_colors_csv in *.
  destruct (stripped_pieces colors_csv) as [|p ps] eqn:Hp; [exact Hout|].
  destruct (check_colors (firstn MAX_BLOCKS (p :: ps))) as [u|e];
    cbn [rbind] in *; [|exact Hout].
  split; [reflexivity|]. split; [|exact Hout].
  rewrite length_firstn. unfold MAX_BLOCKS. cbn [length]. lia.
Qed.

Lemma lstrip_all (p : ascii -> bool) (s : string) :
  string_forall p s = true -> lstrip p s = EmptyString.
Proof.
  induction s as [|c s IH]; simpl; [reflexivity|].
  intro H. apply andb_true_iff in H. destruct H as [Hc Hs].
  rewrite Hc. apply IH, Hs.
Qed.

Lemma split_comma_blank (s : string) :
  string_forall comma_or_space s = true ->
  Forall (fun p => string_forall is_space p = true) (split_comma s).
Proof.
  induction s as [|c s IH]; simpl; intro H; [repeat constructor|].
  apply andb_true_iff in H. destruct H as [Hc Hs]. specialize (IH Hs).
  unfold comma_or_space in Hc.
  destruct (is_comma c) eqn:Ec.
  - constructor; [reflexivity | exact IH].
  - simpl in Hc. destruct (split_comma s) as [|p ps].
    + constructor; [simpl; rewrite Hc; reflexivity | constructor].
    + apply Forall_cons in IH. destruct IH as [Hp Hps].
      constructor; [simpl; rewrite Hc, Hp; reflexivity | exact Hps].
Qed.

(** X12. A colour list made only of commas and white space, the empty
    string included, is refused with the status-400 exception
    ["No colors provided."]. *)
Theorem blank_colors_refused (colors_csv : string) :
  string_forall comma_or_space colors_csv = true ->
  parse_colors_csv colors_csv
  = Raise (HTTPException 400 "No colors provided.").
Proof.
  intro Hblank. unfold parse_colors_csv.
  assert (Hnone : stripped_pieces colors_csv = []).
  { unfold stripped_pieces.
    pose proof (split_comma_blank colors_csv Hblank) as Hps.
    induction Hps as [|p ps Hp _ IH]; [reflexivity|].
    cbn [map List.filter]. unfold strip at 1.
    rewrite (lstrip_all is_space p Hp). exact IH. }
  rewrite Hnone. reflexivity.
Qed.

Lemma blank_colors_refused_witness :
  string_forall comma_or_space " , ,, " = true
  /\ parse_colors_csv " , ,, "
     = Raise (HTTPException 400 "No colors provided.").
Proof.
  split; [reflexivity|]. apply blank_colors_refused. reflexivity.
Defined.

(** * Further properties of the renderer *)

Lemma hex_to_rgb_bad_request (c : string) (e : exn) :
  hex_to_rgb c = Raise e -> is_bad_request e.
Proof.
  rewrite hex_to_rgb_cases.
  destruct (hex_3_or_6 (trimmed_hex c)); [discriminate|].
  intro He. injection He as <-. eexists. reflexivity.
Qed.

Lemma block_color_bad_request (colors_hex fallback : list string) (i : nat)
  (e : exn) :
  block_color colors_hex fallback i = Raise e -> is_bad_request e.
Proof.
  rewrite block_color_lookup.
  destruct (colors_hex !! i) as [c|];
    [apply hex_to_rgb_bad_request|].
  destruct (fallback !! i) as [c|];
    [apply hex_to_rgb_bad_request | discriminate].
Qed.

Lemma block_lines_thin (col : rgb) (b : block) :
  Forall is_thin_line (block_lines col b)
  /\ length (block_lines col b) = length b.
Proof.
  unfold block_lines. split; [|apply length_map].
  apply List.Forall_forall. intros op Hop. apply in_map_iff in Hop.
  destruct Hop as [sg [<- _]]. exists sg, col. reflexivity.
Qed.

(** The loop draws one thin line per segment, or raises a status-400
    exception. *)
Lemma draw_blocks_outcome (colors_hex fallback : list string)
  (blocks : list block) :
  forall i0 : nat,
    match draw_blocks colors_hex fallback i0 blocks with
    | Ok ops =>
        Forall is_thin_line ops /\ length ops = total_segments blocks
    | Raise e => is_bad_request e
    end.
Proof.
  induction blocks as [|b blocks IH]; intro i0; cbn [draw_blocks].
  - split; [constructor | reflexivity].
  - destruct (block_color colors_hex fallback i0) as [col|e] eqn:Hc;
      cbn [rbind]; [|eapply block_color_bad_request, Hc].
    specialize (IH (S i0)).
    destruct (draw_blocks colors_hex fallback (S i0) blocks) as [ops|e];
      cbn [rbind]; [|exact IH].
    destruct IH as [Hthin Hlen].
    destruct (block_lines_thin col b) as [Hb Hbl]. split.
    + apply Forall_app. split; assumption.
    + unfold total_segments in *. cbn [concat].
      rewrite !length_app, Hbl, Hlen. reflexivity.
Qed.

Lemma normalize_blocks_segments (bs : list block) (padding canvas : Q) :
  total_segments (fst (normalize_blocks bs padding canvas))
  = total_segments bs
  /\ snd (normalize_blocks bs padding canvas) = canvas.
Proof.
  unfold normalize_blocks.
  destruct (endpoints bs) as [|p0 ps]; cbn [fst snd];
    [split; reflexivity|].
  split; [|reflexivity]. unfold total_segments.
  induction bs as [|b bs IH]; [reflexivity|].
  cbn [map concat]. rewrite !length_app, length_map, IH. reflexivity.
Qed.

(** X13. A rendering that finishes is a 900 by 900 image filled with the
    parsed background, on which one line of width 2 is drawn for every
    segment of the first 20 blocks, followed by the watermark band over the
    bottom 26 pixels and its notice.  A rendering that fails raises a
    status-400 exception, never an index error. *)
Theorem render_outcome (thr : Q) (pattern : EmbPattern) (bg_hex : string)
  (colors_hex : list string) :
  match render_preview_png thr pattern bg_hex colors_hex with
  | Ok img =>
      img_size img = (900, 900)
      /\ hex_to_rgb bg_hex = Ok (img_background img)
      /\ exists lines,
           img_ops img
           = lines ++ [Rectangle (0, 900 - 26, 900, 900) (0, 0, 0)%Z;
                       Text (10, 900 - 20)
                            "jnbvisualizer proof (preview only)"
                            (255, 255, 255)%Z]
           /\ Forall is_thin_line lines
           /\ length lines
              = total_segments
                  (firstn MAX_BLOCKS (pattern_to_blocks_clean thr pattern))
  | Raise e => is_bad_request e
  end.
Proof.
  unfold render_preview_png, render_blocks.
  destruct (normalize_blocks_segments
              (firstn MAX_BLOCKS (pattern_to_blocks_clean thr pattern))
              40 900) as [Hseg Hcanvas].
  destruct (normalize_blocks
              (firstn MAX_BLOCKS (pattern_to_blocks_clean thr pattern))
              40 900) as [blocks canvas].
  cbn [fst snd] in Hseg, Hcanvas. subst canvas.
  destruct (hex_to_rgb bg_hex) as [bg|e] eqn:Hbg; cbn [rbind];
    [|eapply hex_to_rgb_bad_request, Hbg].
  pose proof (draw_blocks_outcome colors_hex
                (extract_thread_colors pattern) blocks 0) as Hd.
  destruct (draw_blocks colors_hex (extract_thread_colors pattern) 0 blocks)
    as [lines|e]; cbn [rbind]; [|exact Hd].
  destruct Hd as [Hthin Hlen]. cbn [img_size img_background img_ops].
  split; [reflexivity|]. split; [reflexivity|].
  exists lines. split; [reflexivity|]. split; [exact Hthin|].
  rewrite Hlen. exact Hseg.
Qed.

Lemma draw_blocks_ext (cs cs' fallback : list string) (blocks : list block) :
  forall i0 : nat,
    (forall k, (k < length blocks)%nat ->
               block_color cs fallback (i0 + k)
               = block_color cs' fallback (i0 + k)) ->
    draw_blocks cs fallback i0 blocks = draw_blocks cs' fallback i0 blocks.
Proof.
  induction blocks as [|b blocks IH]; intros i0 Hsame; [reflexivity|].
  cbn [draw_blocks].
  pose proof (Hsame 0%nat ltac:(simpl; lia)) as H0.
  rewrite Nat.add_0_r in H0. rewrite H0.
  rewrite (IH (S i0)); [reflexivity|].
  intros k Hk. replace (S i0 + k)%nat with (i0 + S k)%nat by lia.
  apply Hsame. simpl. lia.
Qed.

Lemma render_blocks_count (thr : Q) (pattern : EmbPattern) :
  length (fst (render_blocks thr pattern)) = get_block_count thr pattern.
Proof.
  unfold render_blocks, get_block_count.
  rewrite normalize_blocks_length, length_firstn. lia.
Qed.

(** X14. Override colours beyond the number of drawn blocks are never
    looked at: rendering with a colour list and rendering with its first
    [get_block_count] entries give the same outcome, even when a later
    entry is not a colour. *)
Theorem surplus_colors_ignored (thr : Q) (pattern : EmbPattern)
  (bg_hex : string) (colors_hex : list string) :
  render_preview_png thr pattern bg_hex colors_hex
  = render_preview_png thr pattern bg_hex
      (firstn (get_block_count thr pattern) colors_hex).
Proof.
  unfold render_preview_png.
  pose proof (render_blocks_count thr pattern) as Hn.
  destruct (render_blocks thr pattern) as [blocks canvas].
  cbn [fst] in Hn.
  rewrite (draw_blocks_ext colors_hex
             (firstn (get_block_count thr pattern) colors_hex)); [reflexivity|].
  intros k Hk. rewrite !block_color_lookup. cbn [Nat.add].
  rewrite lookup_take_lt by lia. reflexivity.
Qed.

(** X15. A design in which nothing is drawn renders as the background and
    the watermark alone, whatever colour list is given: the rendering only
    needs a valid background. *)
Theorem blank_design_renders (thr : Q) (pattern : EmbPattern)
  (bg_hex : string) (colors_hex : list string) (bg : rgb) :
  pattern_to_blocks_clean thr pattern = [] ->
  hex_to_rgb bg_hex = Ok bg ->
  render_preview_png thr pattern bg_hex colors_hex
  = Ok (mkImage (900, 900) bg (watermark 900)).
Proof.
  intros Hblank Hbg. unfold render_preview_png, render_blocks.
  rewrite Hblank, Hbg. reflexivity.
Qed.

Lemma blank_design_renders_witness :
  let pattern := mkEmbPattern [(0, 0, JUMP); (5, 5, STITCH); (9, 9, END)]
                              [mkEmbThread 255 "blue" "1" "x"] in
  pattern_to_blocks_clean JUMP_DISTANCE_THRESHOLD pattern = []
  /\ hex_to_rgb "#fff" = Ok (255, 255, 255)%Z
  /\ render_preview_png JUMP_DISTANCE_THRESHOLD pattern "#fff" ["nocolor"]
     = Ok (mkImage (900, 900) (255, 255, 255)%Z (watermark 900)).
Proof.
  intro pattern. split; [reflexivity|]. split; [reflexivity|].
  apply blank_design_renders; reflexivity.
Defined.

(** * Design files and routes *)

#[global] Instance string_le_total : Total string_le.
Proof. intros a b. apply String.leb_total. Qed.

Lemma list_pes_files_members (listing : option (list string)) (f : string) :
  In f (list_pes_files listing)
  <-> exists entries,
        listing = Some entries /\ In f entries
        /\ endswith (string_map to_lower f) ".pes" = true.
Proof.
  unfold list_pes_files. destruct listing as [entries|].
  - split.
    + intro Hin.
      apply (Permutation_in _ (merge_sort_Permutation string_le _)) in Hin.
      apply filter_In in Hin. destruct Hin as [Hin Hpes].
      exists entries. auto.
    + intros [entries' [Heq [Hin Hpes]]]. injection Heq as <-.
      apply (Permutation_in _
               (Permutation_sym (merge_sort_Permutation string_le _))).
      apply filter_In. auto.
  - split; [intros [] | intros [entries [Heq _]]; discriminate Heq].
Qed.

(** X16. [list_pes_files] returns, in ascending order, exactly the entries
    of the master directory whose name ends in [.pes] whatever the case of
    its letters; it returns nothing when the directory is missing. *)
Theorem list_pes_files_sorted_filter (listing : option (list string)) :
  Sorted string_le (list_pes_files listing)
  /\ (forall f,
        In f (list_pes_files listing)
        <-> exists entries,
              listing = Some entries /\ In f entries
              /\ endswith (string_map to_lower f) ".pes" = true)
  /\ (listing = None -> list_pes_files listing = []).
Proof.
  split; [|split].
  - unfold list_pes_files. destruct listing as [entries|]; [|constructor].
    apply (Sorted_merge_sort string_le).
  - apply list_pes_files_members.
  - intros ->. reflexivity.
Qed.

Section RoutesProperties.

Variable MASTER_DIR : string.
Variable path_join : string -> string -> string.
Variable read : string -> result EmbPattern.
Variable thr : Q.

Lemma validate_design_file_cases (listing : option (list string))
  (design_file : string) :
  (In design_file (list_pes_files listing)
   /\ validate_design_file MASTER_DIR path_join listing design_file
      = Ok (path_join MASTER_DIR design_file))
  \/ (~ In design_file (list_pes_files listing)
      /\ validate_design_file MASTER_DIR path_join listing design_file
         = Raise design_not_found).
Proof.
  unfold validate_design_file. case_bool_decide as Hin.
  - left. split; [|reflexivity].
    apply elem_of_list_to_set, list_elem_of_In in Hin. exact Hin.
  - right. split; [|reflexivity]. intro Hin'. apply Hin.
    apply elem_of_list_to_set, list_elem_of_In. exact Hin'.
Qed.

(** X17. [validate_design_file] returns the path of the design inside the
    master directory exactly when the name is an entry of that directory
    ending in [.pes]; for any other name, and always when the directory is
    missing, it raises the status-404 exception. *)
Theorem validate_design_file_outcome (listing : option (list string))
  (design_file : string) :
  match validate_design_file MASTER_DIR path_join listing design_file with
  | Ok path =>
      path = path_join MASTER_DIR design_file
      /\ exists entries,
           listing = Some entries /\ In design_file entries
           /\ endswith (string_map to_lower design_file) ".pes" = true
  | Raise e =>
      e = HTTPException 404 "Design file not found in designs/master."
      /\ forall entries,
           listing = Some entries -> In design_file entries ->
           endswith (string_map to_lower design_file) ".pes" = false
  end.
Proof.
  destruct (validate_design_file_cases listing design_file)
    as [[Hin ->] | [Hout ->]].
  - split; [reflexivity|]. apply list_pes_files_members, Hin.
  - split; [reflexivity|]. intros entries Hl He.
    destruct (endswith (string_map to_lower design_file) ".pes") eqn:Hpes;
      [|reflexivity].
    exfalso. apply Hout, list_pes_files_members. exists entries. auto.
Qed.

Lemma render_after_validation (pattern : EmbPattern) (bg_hex : string)
  (colors_hex : list string) (v : Z) :
  hex_to_rgb_int bg_hex = Ok v ->
  Forall (fun c => (exists v, hex_to_rgb_int c = Ok v)
                   /\ (exists rgb, hex_to_rgb c = Ok rgb)) colors_hex ->
  exists img, render_preview_png thr pattern bg_hex colors_hex = Ok img.
Proof.
  intros Hbg Hcs. destruct (hex_to_rgb_of_int _ _ Hbg) as [_ Hrgb].
  unfold render_preview_png.
  pose proof (render_blocks_capped thr pattern) as Hcap.
  destruct (render_blocks thr pattern) as [blocks canvas]. cbn [fst] in Hcap.
  rewrite Hrgb. cbn [rbind].
  destruct (draw_blocks_ok colors_hex (extract_thread_colors pattern)
                           blocks 0) as [ops Hops].
  - intros k Hk. cbn [Nat.add]. rewrite block_color_lookup.
    destruct (colors_hex !! k) as [c|] eqn:Hc.
    + apply (proj1 (Forall_lookup _ _) Hcs) in Hc.
      destruct Hc as [_ [rgb Hc]]. exists rgb. exact Hc.
    + pose proof (native_block_color pattern k ltac:(lia)) as Hnat.
      rewrite block_color_lookup in Hnat.
      change (@nil string !! k) with (@None string) in Hnat.
      eexists. exact Hnat.
  - rewrite Hops. cbn [rbind]. eexists. reflexivity.
Qed.

(** X18. [/preview.png] answers with an image exactly when the design is
    validated, the background parses, the colour list parses and the file
    decodes: after these four steps the rendering cannot fail.  Otherwise it
    raises, in this order of precedence, the status-404 exception of the
    design check, the status-400 exception of the background, the
    status-400 exception of the colour list, or the exception of the
    decoder. *)
Theorem preview_png_outcome (listing : option (list string))
  (design bg colors : string) :
  match preview_png MASTER_DIR path_join read thr listing design bg colors with
  | Ok img =>
      exists path v cs pattern,
        validate_design_file MASTER_DIR path_join listing design = Ok path
        /\ hex_to_rgb_int bg = Ok v
        /\ parse_colors_csv colors = Ok cs
        /\ read path = Ok pattern
        /\ render_preview_png thr pattern bg cs = Ok img
  | Raise e =>
      (e = design_not_found
       /\ validate_design_file MASTER_DIR path_join listing design = Raise e)
      \/ (exists path,
            validate_design_file MASTER_DIR path_join listing design = Ok path
            /\ is_bad_request e
            /\ hex_to_rgb_int bg = Raise e)
      \/ (exists path v,
            validate_design_file MASTER_DIR path_join listing design = Ok path
            /\ hex_to_rgb_int bg = Ok v
            /\ is_bad_request e
            /\ parse_colors_csv colors = Raise e)
      \/ (exists path v cs,
            validate_design_file MASTER_DIR path_join listing design = Ok path
            /\ hex_to_rgb_int bg = Ok v
            /\ parse_colors_csv colors = Ok cs
            /\ read path = Raise e)
  end.
Proof.
  unfold preview_png.
  destruct (validate_design_file_cases listing design)
    as [[_ ->] | [_ ->]]; cbn [rbind]; [|left; split; reflexivity].
  destruct (hex_to_rgb_int bg) as [v|e] eqn:Hbg; cbn [rbind].
  - pose proof (parse_colors_csv_raises colors) as Hparse.
    destruct (parse_colors_csv colors) as [cs|e] eqn:Hcs; cbn [rbind].
    + destruct (read (path_join MASTER_DIR design)) as [pattern|e] eqn:Hread;
        cbn [rbind].
      * destruct (render_after_validation pattern bg cs v Hbg Hparse)
          as [img Himg].
        rewrite Himg.
        exists (path_join MASTER_DIR design), v, cs, pattern. auto.
      * right. right. right.
        exists (path_join MASTER_DIR design), v, cs. auto.
    + right. right. left. exists (path_join MASTER_DIR design), v. auto.
  - right. left. exists (path_join MASTER_DIR design).
    split; [reflexivity|].
    split; [eapply hex_to_rgb_int_bad_request, Hbg | reflexivity].
Qed.

End RoutesProperties.

(** * Further properties of the recolor writer *)

Lemma land_24_bits (v : Z) :
  (0 <= v < 16777216)%Z -> Z.land v 16777215 = v.
Proof.
  intro Hv. change 16777215%Z with (Z.ones 24).
  rewrite Z.land_ones by lia. apply Z.mod_small. exact Hv.
Qed.

Section RecolorFurther.

Variable GENERATED_DIR : string.
Variable splitext_root : string -> string.
Variable path_join : string -> string -> string.

(** What a successful call has done, in terms of the loop. *)
Lemma generate_written (disk disk' : gmap string EmbPattern)
  (pattern : EmbPattern) (colors_hex : list string)
  (proof_id client_tag design_file path : string) :
  generate_recolored_pes GENERATED_DIR splitext_root path_join disk pattern
                         colors_hex proof_id client_tag design_file
  = (Ok path, disk') ->
  exists tl',
    recolor_loop
      (seq 0 (Nat.min (length (threadlist pattern)) (length colors_hex)))
      colors_hex (threadlist pattern) = Ok tl'
    /\ disk' = <[path := mkEmbPattern (stitches pattern) tl']> disk.
Proof.
  unfold generate_recolored_pes.
  destruct (threadlist pattern) as [|t0 tl]; [discriminate|].
  destruct (recolor_loop _ colors_hex (t0 :: tl)) as [tl'|e];
    [|discriminate].
  intro Heq. injection Heq as <- <-. exists tl'. split; reflexivity.
Qed.

(** X19. The generated file shows what the preview showed.  After a
    successful recoloring the written pattern has the stitches of the
    master, and for every block index below both the number of threads and
    the number of supplied colours (and below the cap of 20) its own thread
    colour resolves to the colour the preview used for that index as an
    override; at every other index below the cap it resolves as in the
    master. *)
Theorem written_file_matches_preview (disk disk' : gmap string EmbPattern)
  (pattern : EmbPattern) (colors_hex : list string)
  (proof_id client_tag design_file path : string) :
  generate_recolored_pes GENERATED_DIR splitext_root path_join disk pattern
                         colors_hex proof_id client_tag design_file
  = (Ok path, disk') ->
  exists written,
    disk' !! path = Some written
    /\ stitches written = stitches pattern
    /\ (forall i,
          (i < Nat.min (length (threadlist pattern)) (length colors_hex))%nat ->
          (i < MAX_BLOCKS)%nat ->
          exists col,
            block_color colors_hex (extract_thread_colors pattern) i = Ok col
            /\ block_color [] (extract_thread_colors written) i = Ok col)
    /\ (forall i,
          (Nat.min (length (threadlist pattern)) (length colors_hex) <= i)%nat ->
          (i < MAX_BLOCKS)%nat ->
          block_color [] (extract_thread_colors written) i
          = block_color [] (extract_thread_colors pattern) i).
Proof.
  intro Hgen. destruct (generate_written _ _ _ _ _ _ _ _ Hgen)
    as [tl' [Hloop ->]].
  set (n := Nat.min (length (threadlist pattern)) (length colors_hex)) in *.
  pose proof (recolor_loop_spec colors_hex n 0 (threadlist pattern)
                ltac:(unfold n; lia) ltac:(unfold n; lia)) as Hspec.
  rewrite Hloop in Hspec. destruct Hspec as [Hlen [Hout Hin]].
  exists (mkEmbPattern (stitches pattern) tl').
  split; [apply lookup_insert_eq|]. split; [reflexivity|]. split.
  - intros i Hi Hcap.
    destruct (lookup_lt_is_Some_2 (threadlist pattern) i) as [t Ht];
      [unfold n in Hi; lia|].
    destruct (Hin i t ltac:(lia) Ht) as [c [v [Hc [Hv Hset]]]].
    destruct (hex_to_rgb_of_int c v Hv) as [Hrange Hrgb].
    exists (rgb_of_int v). split.
    + rewrite block_color_lookup, Hc. exact Hrgb.
    + rewrite native_block_color by exact Hcap. cbn [threadlist].
      rewrite Hset. unfold thread_rgb, set_color. cbn [color].
      rewrite land_24_bits by exact Hrange. reflexivity.
  - intros i Hi Hcap. rewrite !native_block_color by exact Hcap.
    cbn [threadlist]. rewrite Hout by lia. reflexivity.
Qed.

(** X20. Colours that went through [parse_colors_csv] cannot make the
    recolor writer fail: for a pattern with at least one thread it writes
    the generated file, and every other file is left as it was. *)
Theorem parsed_colors_are_written (disk : gmap string EmbPattern)
  (pattern : EmbPattern) (colors_csv : string) (colors_hex : list string)
  (proof_id client_tag design_file : string) :
  parse_colors_csv colors_csv = Ok colors_hex ->
  threadlist pattern <> [] ->
  let out_path :=
    path_join GENERATED_DIR
              (out_name splitext_root design_file client_tag proof_id) in
  let r :=
    generate_recolored_pes GENERATED_DIR splitext_root path_join disk pattern
                           colors_hex proof_id client_tag design_file in
  fst r = Ok out_path
  /\ is_Some (snd r !! out_path)
  /\ forall p, p <> out_path -> snd r !! p = disk !! p.
Proof.
  intros Hparse Hne out_path r.
  pose proof (parse_colors_csv_raises colors_csv) as Hok.
  rewrite Hparse in Hok.
  set (n := Nat.min (length (threadlist pattern)) (length colors_hex)).
  pose proof (recolor_loop_spec colors_hex n 0 (threadlist pattern)
                ltac:(unfold n; lia) ltac:(unfold n; lia)) as Hspec.
  assert (Hr : r = match recolor_loop (seq 0 n) colors_hex
                                      (threadlist pattern) with
                   | Raise e => (Raise e, disk)
                   | Ok tl =>
                       (Ok out_path,
                        <[out_path := mkEmbPattern (stitches pattern) tl]>
                          disk)
                   end).
  { unfold r, generate_recolored_pes.
    destruct (threadlist pattern) as [|t0 tl]; [congruence | reflexivity]. }
  rewrite Hr. clear Hr.
  destruct (recolor_loop (seq 0 n) colors_hex (threadlist pattern))
    as [tl'|e].
  - cbn [fst snd]. split; [reflexivity|]. split.
    + rewrite lookup_insert_eq. eexists. reflexivity.
    + intros p Hp. apply lookup_insert_ne. congruence.
  - exfalso. destruct Hspec as [i [c [_ [Hc He]]]].
    apply (proj1 (Forall_lookup _ _) Hok) in Hc.
    destruct Hc as [[v Hv] _]. congruence.
Qed.

End RecolorFurther.

Lemma written_file_matches_preview_witness :
  let pattern :=
    mkEmbPattern [(0, 0, STITCH); (1, 0, STITCH)]
      [mkEmbThread 1 "a" "1" "x"; mkEmbThread 2 "b" "2" "x"] in
  let path := "generated/A__client__JNB-0A1B2C3D.pes" in
  let disk' :=
    <[path := mkEmbPattern (stitches pattern)
                [mkEmbThread 16711680 "a" "1" "x"; mkEmbThread 2 "b" "2" "x"]]>
      (∅ : gmap string EmbPattern) in
  generate_recolored_pes "generated" (fun s => substring 0 1 s)
    (fun a b => (a ++ "/" ++ b)%string) ∅ pattern ["#ff0000"]
    "JNB-0A1B2C3D" "client" "A.pes" = (Ok path, disk')
  /\ exists written,
       disk' !! path = Some written
       /\ stitches written = stitches pattern.
Proof.
  intros pattern path disk'.
  assert (Hgen : generate_recolored_pes "generated" (fun s => substring 0 1 s)
                   (fun a b => (a ++ "/" ++ b)%string) ∅ pattern ["#ff0000"]
                   "JNB-0A1B2C3D" "client" "A.pes" = (Ok path, disk'))
    by reflexivity.
  split; [exact Hgen|].
  destruct (written_file_matches_preview _ _ _ _ _ _ _ _ _ _ _ Hgen)
    as [written [Hw [Hs _]]].
  exists written. split; assumption.
Defined.

Lemma parsed_colors_are_written_witness :
  let pattern :=
    mkEmbPattern [(0, 0, STITCH); (1, 0, STITCH)]
      [mkEmbThread 1 "a" "1" "x"; mkEmbThread 2 "b" "2" "x"] in
  parse_colors_csv "#ff0000, 0f0" = Ok ["#ff0000"; "0f0"]
  /\ threadlist pattern <> []
  /\ fst (generate_recolored_pes "generated" (fun s => substring 0 1 s)
            (fun a b => (a ++ "/" ++ b)%string) ∅ pattern ["#ff0000"; "0f0"]
            "JNB-0A1B2C3D" "client" "A.pes")
     = Ok "generated/A__client__JNB-0A1B2C3D.pes".
Proof.
  intro pattern.
  assert (Hp : parse_colors_csv "#ff0000, 0f0" = Ok ["#ff0000"; "0f0"])
    by reflexivity.
  assert (Hne : threadlist pattern <> []) by discriminate.
  split; [exact Hp|]. split; [exact Hne|].
  exact (proj1 (parsed_colors_are_written "generated"
                  (fun s => substring 0 1 s)
                  (fun a b => (a ++ "/" ++ b)%string) ∅ pattern
                  "#ff0000, 0f0" ["#ff0000"; "0f0"] "JNB-0A1B2C3D" "client"
                  "A.pes" Hp Hne)).
Defined.

(** * Properties of the client tag *)

Lemma lstrip_suffix (p : ascii -> bool) (s : string) :
  exists d, list_ascii_of_string s = d ++ list_ascii_of_string (lstrip p s).
Proof.
  induction s as [|c s [d Hd]]; [exists []; reflexivity|].
  simpl. destruct (p c).
  - exists (c :: d). simpl. rewrite Hd. reflexivity.
  - exists []. reflexivity.
Qed.

Lemma list_of_string_rev (s : string) :
  list_ascii_of_string (string_rev s) = rev (list_ascii_of_string s).
Proof.
  unfold string_rev. apply list_ascii_of_string_of_list_ascii.
Qed.

Lemma rstrip_prefix (p : ascii -> bool) (s : string) :
  exists t, list_ascii_of_string s = list_ascii_of_string (rstrip p s) ++ t.
Proof.
  unfold rstrip. destruct (lstrip_suffix p (string_rev s)) as [d Hd].
  exists (rev d). rewrite list_of_string_rev, <- rev_app_distr, <- Hd.
  rewrite list_of_string_rev, rev_involutive. reflexivity.
Qed.

Lemma forallb_app_parts {A} (q : A -> bool) (l1 l2 : list A) :
  forallb q (l1 ++ l2) = true -> forallb q l1 = true /\ forallb q l2 = true.
Proof.
  rewrite forallb_app. apply andb_true_iff.
Qed.

Lemma strip_forall (q p : ascii -> bool) (s : string) :
  string_forall q s = true -> string_forall q (strip p s) = true.
Proof.
  rewrite !string_forall_list. intro Hs. unfold strip.
  destruct (rstrip_prefix p (lstrip p s)) as [t Ht].
  destruct (lstrip_suffix p s) as [d Hd].
  rewrite Hd in Hs. apply forallb_app_parts in Hs. destruct Hs as [_ Hs].
  rewrite Ht in Hs. apply forallb_app_parts in Hs. apply Hs.
Qed.

Lemma sub_runs_forall (q p : ascii -> bool) (s : string) :
  q "_"%char = true ->
  forall b : bool,
    string_forall (fun c => q c || p c) s = true ->
    string_forall q (sub_runs p b s) = true.
Proof.
  intro Hq. induction s as [|c s IH]; intros b Hs; [reflexivity|].
  simpl in Hs. apply andb_true_iff in Hs. destruct Hs as [Hc Hs].
  simpl. destruct (p c) eqn:Ep.
  - destruct b; [apply IH, Hs|]. simpl. rewrite Hq. apply IH, Hs.
  - rewrite orb_false_r in Hc. simpl. rewrite Hc. apply IH, Hs.
Qed.

Lemma string_forall_true (q : ascii -> bool) (s : string) :
  (forall c, q c = true) -> string_forall q s = true.
Proof.
  intro Hq. induction s as [|c s IH]; simpl; [reflexivity|].
  rewrite Hq, IH. reflexivity.
Qed.

Lemma string_forall_weaken (q q' : ascii -> bool) (s : string) :
  (forall c, q c = true -> q' c = true) ->
  string_forall q s = true -> string_forall q' s = true.
Proof.
  intro Hq. induction s as [|c s IH]; simpl; [reflexivity|].
  intro H. apply andb_true_iff in H. destruct H as [Hc Hs].
  rewrite (Hq c Hc), (IH Hs). reflexivity.
Qed.

Lemma substring_prefix_length (n : nat) (s : string) :
  String.length (substring 0 n s) = Nat.min n (String.length s).
Proof.
  revert s. induction n as [|n IH]; intros [|c s]; simpl; try reflexivity.
  rewrite IH. reflexivity.
Qed.

Lemma substring_prefix_forall (q : ascii -> bool) (n : nat) (s : string) :
  string_forall q s = true -> string_forall q (substring 0 n s) = true.
Proof.
  revert s. induction n as [|n IH]; intros [|c s]; simpl; try reflexivity.
  intro H. apply andb_true_iff in H. destruct H as [Hc Hs].
  rewrite Hc, (IH s Hs). reflexivity.
Qed.

(** The tag before the default and the cut: lower case, runs replaced,
    underscores collapsed and stripped. *)
Lemma safe_tag_unfold (s : string) (n : nat) :
  safe_tag s n
  = substring 0 n
      (if is_empty
            (strip is_underscore
               (sub_runs is_underscore false
                  (sub_runs not_tag_char false
                     (string_map to_lower (strip is_space s)))))
       then "client"
       else strip is_underscore
              (sub_runs is_underscore false
                 (sub_runs not_tag_char false
                    (string_map to_lower (strip is_space s))))).
Proof.
  unfold safe_tag.
  destruct (strip is_underscore _) as [|c u]; reflexivity.
Qed.

Lemma safe_tag_body_chars (s : string) :
  string_forall is_tag_char
    (strip is_underscore
       (sub_runs is_underscore false
          (sub_runs not_tag_char false
             (string_map to_lower (strip is_space s))))) = true.
Proof.
  apply strip_forall.
  apply (sub_runs_forall is_tag_char is_underscore); [reflexivity|].
  eapply string_forall_weaken;
    [|apply (sub_runs_forall is_tag_char not_tag_char); [reflexivity|]].
  - intros c Hc. rewrite Hc. reflexivity.
  - apply string_forall_true. intro c. unfold is_tag_char.
    destruct (not_tag_char c); reflexivity.
Qed.

(** X21. Whatever the input, [safe_tag] returns a string over
    [[a-z0-9_-]] of at most [max_len] characters, and a non-empty one when
    [max_len] is at least 1: it can always be put in a file name. *)
Theorem safe_tag_is_safe (s : string) (max_len : nat) :
  string_forall is_tag_char (safe_tag s max_len) = true
  /\ (String.length (safe_tag s max_len) <= max_len)%nat
  /\ ((1 <= max_len)%nat -> (1 <= String.length (safe_tag s max_len))%nat).
Proof.
  rewrite safe_tag_unfold.
  pose proof (safe_tag_body_chars s) as Hbody.
  destruct (strip is_underscore _) as [|c u]; cbn [is_empty].
  - split; [apply substring_prefix_forall; reflexivity|].
    rewrite substring_prefix_length. simpl String.length. lia.
  - split; [apply substring_prefix_forall, Hbody|].
    rewrite substring_prefix_length. simpl String.length. lia.
Qed.

Lemma tag_char_plain (c : ascii) :
  is_tag_char c = true ->
  is_space c = false /\ to_lower c = c /\ not_tag_char c = false.
Proof.
  intro Hc.
  pose proof (all_chars
                (fun c => implb (is_tag_char c)
                                (negb (is_space c)
                                 && Ascii.eqb (to_lower c) c
                                 && negb (not_tag_char c)))
                ltac:(vm_compute; reflexivity) c) as Hall.
  cbv beta in Hall. rewrite Hc in Hall. cbn [implb] in Hall.
  apply andb_true_iff in Hall. destruct Hall as [Hall H3].
  apply andb_true_iff in Hall. destruct Hall as [H1 H2].
  apply negb_true_iff in H1, H3. apply Ascii.eqb_eq in H2. auto.
Qed.

Lemma underscore_char (c : ascii) : is_underscore c = true -> c = "_"%char.
Proof.
  intro Hc.
  pose proof (all_chars
                (fun c => implb (is_underscore c) (Ascii.eqb c "_"))
                ltac:(vm_compute; reflexivity) c) as Hall.
  cbv beta in Hall. rewrite Hc in Hall. apply Ascii.eqb_eq, Hall.
Qed.

Lemma string_map_fixed (q : ascii -> bool) (f : ascii -> ascii) (s : string) :
  (forall c, q c = true -> f c = c) ->
  string_forall q s = true -> string_map f s = s.
Proof.
  intro Hf. induction s as [|c s IH]; simpl; [reflexivity|].
  intro H. apply andb_true_iff in H. destruct H as [Hc Hs].
  rewrite (Hf c Hc), (IH Hs). reflexivity.
Qed.

Lemma sub_runs_absent (p q : ascii -> bool) (s : string) :
  (forall c, q c = true -> p c = false) ->
  forall b, string_forall q s = true -> sub_runs p b s = s.
Proof.
  intro Hpq. induction s as [|c s IH]; intros b H; [reflexivity|].
  simpl in H. apply andb_true_iff in H. destruct H as [Hc Hs].
  simpl. rewrite (Hpq c Hc), (IH false Hs). reflexivity.
Qed.

Lemma sub_runs_no_double (p : ascii -> bool) (s : string) :
  p "_"%char = true ->
  forall b, no_double p b (list_ascii_of_string (sub_runs p b s)) = true.
Proof.
  intro Hp. induction s as [|c s IH]; intro b; [reflexivity|].
  simpl. destruct (p c) eqn:Ec.
  - destruct b; [apply IH|]. simpl. rewrite Hp. apply IH.
  - simpl. rewrite Ec. apply IH.
Qed.

Lemma no_double_prefix (p : ascii -> bool) (l1 l2 : list ascii) :
  forall b, no_double p b (l1 ++ l2) = true -> no_double p b l1 = true.
Proof.
  induction l1 as [|c l1 IH]; intros b H; [reflexivity|].
  simpl in *. destruct (p c).
  - apply andb_true_iff in H. destruct H as [Hb H].
    rewrite Hb, (IH true H). reflexivity.
  - apply IH, H.
Qed.

Lemma no_double_lstrip (p : ascii -> bool) (s : string) :
  forall b,
    no_double p b (list_ascii_of_string s) = true ->
    no_double p false (list_ascii_of_string (lstrip p s)) = true.
Proof.
  induction s as [|c s IH]; intros b H; [reflexivity|].
  simpl in *. destruct (p c) eqn:Ec.
  - apply andb_true_iff in H. destruct H as [_ H]. apply (IH true H).
  - simpl. rewrite Ec. exact H.
Qed.

Lemma sub_runs_fixed (p : ascii -> bool) (s : string) :
  (forall c, p c = true -> c = "_"%char) ->
  forall b,
    no_double p b (list_ascii_of_string s) = true -> sub_runs p b s = s.
Proof.
  intro Hp. induction s as [|c s IH]; intros b H; [reflexivity|].
  simpl in *. destruct (p c) eqn:Ec.
  - apply andb_true_iff in H. destruct H as [Hb H].
    apply negb_true_iff in Hb. subst b.
    rewrite (IH true H), (Hp c Ec). reflexivity.
  - rewrite (IH false H). reflexivity.
Qed.

Lemma head_ok_lstrip (p : ascii -> bool) (s : string) :
  head_ok p (list_ascii_of_string (lstrip p s)) = true.
Proof.
  induction s as [|c s IH]; [reflexivity|].
  simpl. destruct (p c) eqn:Ec; [exact IH|]. simpl. rewrite Ec. reflexivity.
Qed.

Lemma head_ok_prefix (p : ascii -> bool) (l1 l2 : list ascii) :
  head_ok p (l1 ++ l2) = true -> head_ok p l1 = true.
Proof.
  destruct l1; [reflexivity | exact (fun H => H)].
Qed.

Lemma lstrip_fixed (p : ascii -> bool) (s : string) :
  head_ok p (list_ascii_of_string s) = true -> lstrip p s = s.
Proof.
  destruct s as [|c s]; [reflexivity|]. simpl. intro H.
  apply negb_true_iff in H. rewrite H. reflexivity.
Qed.

Lemma strip_fixed (p : ascii -> bool) (s : string) :
  head_ok p (list_ascii_of_string s) = true ->
  head_ok p (rev (list_ascii_of_string s)) = true ->
  strip p s = s.
Proof.
  intros Hh Ht. unfold strip, rstrip. rewrite (lstrip_fixed p s Hh).
  rewrite lstrip_fixed by (rewrite list_of_string_rev; exact Ht).
  apply string_rev_involutive.
Qed.

(** What stripping leaves behind. *)
Lemma strip_result (p : ascii -> bool) (w : string) (b : bool) :
  no_double p b (list_ascii_of_string w) = true ->
  head_ok p (list_ascii_of_string (strip p w)) = true
  /\ head_ok p (rev (list_ascii_of_string (strip p w))) = true
  /\ no_double p false (list_ascii_of_string (strip p w)) = true.
Proof.
  intro Hnd. unfold strip.
  destruct (rstrip_prefix p (lstrip p w)) as [t Ht].
  pose proof (head_ok_lstrip p w) as Hh.
  pose proof (no_double_lstrip p w b Hnd) as Hn.
  rewrite Ht in Hh, Hn.
  split; [apply (head_ok_prefix _ _ _ Hh)|]. split.
  - unfold rstrip. rewrite list_of_string_rev, rev_involutive.
    apply head_ok_lstrip.
  - apply (no_double_prefix _ _ _ _ Hn).
Qed.

Lemma substring_all (n : nat) (s : string) :
  (String.length s <= n)%nat -> substring 0 n s = s.
Proof.
  revert s. induction n as [|n IH]; intros [|c s] Hlen; simpl in *;
    try reflexivity; [lia|].
  rewrite IH by lia. reflexivity.
Qed.

(** A tag that is already clean and short enough is returned as it is. *)
Lemma safe_tag_fixed (v : string) (n : nat) :
  string_forall is_tag_char v = true ->
  no_double is_underscore false (list_ascii_of_string v) = true ->
  head_ok is_underscore (list_ascii_of_string v) = true ->
  head_ok is_underscore (rev (list_ascii_of_string v)) = true ->
  is_empty v = false ->
  (String.length v <= n)%nat ->
  safe_tag v n = v.
Proof.
  intros Hchars Hnd Hh Ht Hne Hlen. rewrite safe_tag_unfold.
  rewrite (strip_absent is_space is_tag_char v
             (fun c Hc => proj1 (tag_char_plain c Hc)) Hchars).
  rewrite (string_map_fixed is_tag_char to_lower v
             (fun c Hc => proj1 (proj2 (tag_char_plain c Hc))) Hchars).
  rewrite (sub_runs_absent not_tag_char is_tag_char v
             (fun c Hc => proj2 (proj2 (tag_char_plain c Hc))) false Hchars).
  rewrite (sub_runs_fixed is_underscore v underscore_char false Hnd).
  rewrite (strip_fixed is_underscore v Hh Ht), Hne.
  apply substring_all, Hlen.
Qed.

(** X22. Applying [safe_tag] to a tag it produced changes nothing, provided
    the tag was not cut at [max_len] (it is shorter than [max_len]).  The
    save route cleans the client tag and the recolor writer cleans it again
    for the file name: below the cut both are the same tag. *)
Theorem safe_tag_idempotent (s : string) (max_len : nat) :
  (String.length (safe_tag s max_len) < max_len)%nat ->
  safe_tag (safe_tag s max_len) max_len = safe_tag s max_len.
Proof.
  intro Hshort.
  pose proof (safe_tag_body_chars s) as Hchars.
  pose proof (safe_tag_unfold s max_len) as Hunf.
  set (w := sub_runs is_underscore false
              (sub_runs not_tag_char false
                 (string_map to_lower (strip is_space s)))) in *.
  destruct (strip_result is_underscore w false
              (sub_runs_no_double is_underscore _ eq_refl false))
    as [Hh [Ht Hnd]].
  set (v := if is_empty (strip is_underscore w) then "client"
            else strip is_underscore w) in *.
  assert (Hv : string_forall is_tag_char v = true
               /\ no_double is_underscore false (list_ascii_of_string v) = true
               /\ head_ok is_underscore (list_ascii_of_string v) = true
               /\ head_ok is_underscore (rev (list_ascii_of_string v)) = true
               /\ is_empty v = false).
  { unfold v. destruct (is_empty (strip is_underscore w)) eqn:Ee.
    - repeat split; reflexivity.
    - repeat split; assumption. }
  destruct Hv as [Hv1 [Hv2 [Hv3 [Hv4 Hv5]]]].
  assert (Hlen : (String.length v < max_len)%nat).
  { rewrite Hunf, substring_prefix_length in Hshort. lia. }
  rewrite Hunf, (substring_all max_len v) by lia.
  apply safe_tag_fixed; try assumption. lia.
Qed.

Lemma safe_tag_idempotent_witness :
  (String.length (safe_tag "Mani Z!!" 28) < 28)%nat
  /\ safe_tag (safe_tag "Mani Z!!" 28) 28 = safe_tag "Mani Z!!" 28.
Proof.
  assert (Hshort : (String.length (safe_tag "Mani Z!!" 28) < 28)%nat)
    by (vm_compute; lia).
  split; [exact Hshort | exact (safe_tag_idempotent "Mani Z!!" 28 Hshort)].
Defined.

Section DesignInfoProperties.

Variable MASTER_DIR : string.
Variable path_join : string -> string -> string.
Variable read : string -> result EmbPattern.
Variable thr : Q.

(** X23. [/design-info] answers exactly when the design is validated and
    the file decodes; it raises the status-404 exception of the design check
    first, and otherwise the exception of the decoder.  The answer carries
    the name that was asked about, the thread colours of the decoded pattern
    (at most 20), and a block count that is at most 20 and is exactly the
    number of blocks the preview of that pattern draws. *)
Theorem design_info_outcome (listing : option (list string))
  (design : string) :
  match design_info MASTER_DIR path_join read thr listing design with
  | Ok info =>
      exists pattern,
        validate_design_file MASTER_DIR path_join listing design
        = Ok (path_join MASTER_DIR design)
        /\ read (path_join MASTER_DIR design) = Ok pattern
        /\ di_design info = design
        /\ di_colors info = extract_thread_colors pattern
        /\ (length (di_colors info) <= MAX_BLOCKS)%nat
        /\ (di_block_count info <= MAX_BLOCKS)%nat
        /\ di_block_count info = length (fst (render_blocks thr pattern))
  | Raise e =>
      (e = design_not_found
       /\ validate_design_file MASTER_DIR path_join listing design = Raise e)
      \/ (validate_design_file MASTER_DIR path_join listing design
          = Ok (path_join MASTER_DIR design)
          /\ read (path_join MASTER_DIR design) = Raise e)
  end.
Proof.
  unfold design_info.
  destruct (validate_design_file_cases MASTER_DIR path_join listing design)
    as [[_ ->] | [_ ->]]; cbn [rbind]; [|left; split; reflexivity].
  destruct (read (path_join MASTER_DIR design)) as [pattern|e] eqn:Hread;
    cbn [rbind]; [|right; split; reflexivity].
  cbn [di_design di_colors di_block_count]. exists pattern.
  split; [reflexivity|]. split; [reflexivity|]. split; [reflexivity|].
  split; [reflexivity|]. split.
  - unfold extract_thread_colors. rewrite length_firstn. lia.
  - split; [unfold get_block_count; lia|].
    symmetry. apply render_blocks_count.
Qed.

End DesignInfoProperties.
